(** * Invoice totals, tax resolution and due-date policy of invoice_manager/app.py

    Shallow embedding of [Invoice.recalc_totals], [determine_tax_rate_for_customer],
    [apply_global_payment_terms] and the due-date / line-item code of
    [_handle_invoice_form]; further [generate_invoice_number], the webhook
    settings and [send_outbound_webhook], [require_api_key], the status
    filter of [list_invoices], payment recording, the row loop of
    [import_invoices] and [Settings.load].

    A Python [Decimal] is a finite decimal number, modelled by its value in
    [Q].  The code never changes the [decimal] context, so the default one
    applies: precision 28, [ROUND_HALF_EVEN], Emax 999999, Emin -999999,
    with [InvalidOperation], [DivisionByZero] and [Overflow] trapped.  The
    exact result of [+], [-], [*] and [/] is rounded to 28 significant
    digits (to the quantum 1E-1000026 below the normal range), and a result
    whose exponent exceeds Emax raises [Overflow].  [Decimal(s)] is exact.
    [quantize(Decimal("0.01"))] rounds half-to-even and raises
    [InvalidOperation] when the result needs more than 28 digits.  The
    special values NaN and Infinity are left out: [Decimal(s)] of such a
    string is taken as a parse failure.

    Dates are modelled by their proleptic ordinal ([date.toordinal()]),
    valid between [date.min] (1) and [date.max] (3652059). *)

From Stdlib Require Import ZArith QArith Qround Qabs Qpower Bool List Ascii String Lia Lqa.
Import ListNotations.

Open Scope Q_scope.

(** ** [decimal] in the default context *)

Inductive decimal_exception := Overflow | InvalidOperation | DivisionByZero.

(** The outcome of [Decimal] code: a value, or the signal it raises. *)
Inductive dresult (A : Type) := DOk (a : A) | DRaised (e : decimal_exception).
Arguments DOk {A} a.
Arguments DRaised {A} e.

Definition dbind {A B : Type} (m : dresult A) (k : A -> dresult B) : dresult B :=
  match m with DOk a => k a | DRaised e => DRaised e end.

Definition dec_prec : Z := 28.
Definition dec_emax : Z := 999999.
(** [Etiny = Emin - prec + 1]. *)
Definition dec_etiny : Z := -1000026.

(** Nearest integer, a tie going to the even one ([ROUND_HALF_EVEN]). *)
Definition round_half_even (y : Q) : Z :=
  let f := Qfloor y in
  let r := y - inject_Z f in
  if Qle_bool (1 # 2) r then
    (if Qeq_bool r (1 # 2) then (if Z.even f then f else (f + 1)%Z) else (f + 1)%Z)
  else f.

(** [floor(log10 n)] of a positive integer, by repeated division; the
    fuel exceeds the number of binary digits. *)
Fixpoint log10_fuel (fuel : nat) (n : Z) : Z :=
  match fuel with
  | O => 0%Z
  | S f => if (n <? 10)%Z then 0%Z else (1 + log10_fuel f (n / 10))%Z
  end.

Definition zlog10 (n : Z) : Z := log10_fuel (S (Z.to_nat (Z.log2 n))) n.

(** The adjusted exponent [floor(log10 |x|)] of a nonzero [x]. *)
Definition adjusted (x : Q) : Z :=
  let e := (zlog10 (Z.abs (Qnum x)) - zlog10 (Zpos (Qden x)))%Z in
  if Qle_bool (10 ^ e) (Qabs x) then e else (e - 1)%Z.

(** An exact result rounded to the context ([Context._fix]): the quantum
    is [10^k] with [k = max(adjusted - 27, Etiny)]; a rounded result whose
    adjusted exponent exceeds Emax raises [Overflow]. *)
Definition ctx_round (x : Q) : dresult Q :=
  if Qeq_bool x 0 then DOk 0 else
  let k := Z.max (adjusted x - (dec_prec - 1)) dec_etiny in
  let c := round_half_even (x / 10 ^ k) in
  if (dec_emax <? zlog10 (Z.abs c) + k)%Z then DRaised Overflow
  else DOk (Qred (inject_Z c * 10 ^ k)).

Definition dec_add (a b : Q) : dresult Q := ctx_round (a + b).
Definition dec_sub (a b : Q) : dresult Q := ctx_round (a - b).
Definition dec_mul (a b : Q) : dresult Q := ctx_round (a * b).

(** [a / b]: [0 / 0] is [InvalidOperation], [a / 0] is [DivisionByZero]. *)
Definition dec_div (a b : Q) : dresult Q :=
  if Qeq_bool b 0 then DRaised (if Qeq_bool a 0 then InvalidOperation else DivisionByZero)
  else ctx_round (a / b).

(** Python's [sum(xs, Decimal("0.00"))]: [((0.00 + x1) + x2) + ...], every
    addition rounded to the context. *)
Definition dec_sum (xs : list Q) : dresult Q :=
  fold_left (fun acc x => dbind acc (fun s => dec_add s x)) xs (DOk 0).

(** [x.quantize(Decimal("0.01"))]: cents, half-to-even; [InvalidOperation]
    when the coefficient would have more than 28 digits. *)
Definition quantize_cents (x : Q) : dresult Q :=
  let n := round_half_even (x * 100) in
  if (10 ^ dec_prec <=? Z.abs n)%Z then DRaised InvalidOperation else DOk (Qmake n 100).

(** [round2] of the spec: rounding to 2 fraction digits, ties away from
    zero ([ROUND_HALF_UP]). *)
Definition round2_half_up (x : Q) : Q :=
  let y := x * 100 in
  if Qle_bool 0 y then Qmake (Qfloor (y + (1 # 2))) 100
  else Qmake (- Qfloor (- y + (1 # 2)))%Z 100.

(** [a <= b] and [a < b] on [Decimal]. *)
Definition dec_le (a b : Q) : bool := Qle_bool a b.
Definition dec_lt (a b : Q) : bool := negb (Qle_bool b a).

(** ** Data model (the SQLAlchemy models) *)

Inductive invoice_status := Draft | Sent | Paid | Overdue | Cancelled.

Definition status_eqb (a b : invoice_status) : bool :=
  match a, b with
  | Draft, Draft | Sent, Sent | Paid, Paid
  | Overdue, Overdue | Cancelled, Cancelled => true
  | _, _ => false
  end.

Record InvoiceItem := mkItem {
  item_id : Z;
  item_product_id : option Z;
  item_description : string;
  quantity : Q;
  unit_price : Q;
  line_total : Q
}.

Record Payment := mkPayment {
  payment_id : Z;
  amount : Q;
  payment_date : Z;
  method : option string;
  external_reference : option string;
  payment_created_at : Z
}.

Record Invoice := mkInvoice {
  id : Z;
  customer_id : Z;
  invoice_number : string;
  issue_date : Z;
  due_date : option Z;
  status : invoice_status;
  notes : option string;
  subtotal_amount : Q;
  tax_rate : option Q;
  tax_amount : Q;
  total_amount : Q;
  balance_due : Q;
  created_at : Z;
  updated_at : Z;
  items : list InvoiceItem;
  payments : list Payment
}.

Record Customer := mkCustomer {
  customer_tax_rate : option Q;
  use_default_tax : bool
}.

Record Settings := mkSettings {
  default_tax_rate : Q;
  payment_terms_days : Z;
  use_global_payment_terms : bool
}.

(** ** [Invoice.recalc_totals]

    [today] is [date.today()].  The status decision reads the status the
    invoice has before the call. *)

Definition next_status (today : Z) (due : option Z) (st : invoice_status)
    (total balance : Q) : invoice_status :=
  if dec_le balance 0 && dec_lt 0 total then Paid
  else if match due with
          | Some d => Z.ltb d today
          | None => false
          end
          && negb (status_eqb st Paid || status_eqb st Cancelled)
  then Overdue
  else if negb (status_eqb st Cancelled || status_eqb st Paid) then Sent
  else st.

(** The invoice [inv] with the fields [recalc_totals] assigns. *)
Definition set_totals (inv : Invoice) (subtotal tax total balance : Q)
    (st : invoice_status) : Invoice :=
  {| id := id inv;
     customer_id := customer_id inv;
     invoice_number := invoice_number inv;
     issue_date := issue_date inv;
     due_date := due_date inv;
     status := st;
     notes := notes inv;
     subtotal_amount := subtotal;
     tax_rate := tax_rate inv;
     tax_amount := tax;
     total_amount := total;
     balance_due := balance;
     created_at := created_at inv;
     updated_at := updated_at inv;
     items := items inv;
     payments := payments inv |}.

(** The invoice after the call and the [Decimal] signal raised, if any:
    the attributes assigned before the raising statement keep their new
    value, the later ones their old one. *)
Definition recalc_totals (today : Z) (inv : Invoice) : Invoice * option decimal_exception :=
  match dec_sum (map line_total (items inv)) with
  | DRaised e => (inv, Some e)
  | DOk subtotal =>
    let inv1 := set_totals inv subtotal (tax_amount inv) (total_amount inv)
                  (balance_due inv) (status inv) in
    let rate := match tax_rate inv with Some r => r | None => 0 end in
    match dbind (dec_mul subtotal rate) (fun p => dbind (dec_div p 100) quantize_cents) with
    | DRaised e => (inv1, Some e)
    | DOk tax =>
      let inv2 := set_totals inv subtotal tax (total_amount inv) (balance_due inv)
                    (status inv) in
      match dec_add subtotal tax with
      | DRaised e => (inv2, Some e)
      | DOk total =>
        let inv3 := set_totals inv subtotal tax total (balance_due inv) (status inv) in
        match dbind (dec_sum (map amount (payments inv))) (fun paid => dec_sub total paid) with
        | DRaised e => (inv3, Some e)
        | DOk balance =>
          (set_totals inv subtotal tax total balance
             (next_status today (due_date inv) (status inv) total balance), None)
        end
      end
    end
  end.

(** ** [determine_tax_rate_for_customer] ([Settings.load()] passed in). *)

Definition determine_tax_rate_for_customer (customer : option Customer)
    (settings : Settings) : Q :=
  match customer with
  | None => default_tax_rate settings
  | Some c =>
      if use_default_tax c || match customer_tax_rate c with None => true | Some _ => false end
      then default_tax_rate settings
      else match customer_tax_rate c with
           | Some r => r
           | None => default_tax_rate settings
           end
  end.

(** ** Dates and the due-date policy *)

(** Outcome of Python code that may raise [OverflowError]. *)
Inductive outcome (A : Type) := Returned (a : A) | RaisedOverflowError.
Arguments Returned {A} a.
Arguments RaisedOverflowError {A}.

Definition date_min : Z := 1%Z.
Definition date_max : Z := 3652059%Z.

(** [d + timedelta(days=n)] on ordinals. *)
Definition date_add_days (d n : Z) : outcome Z :=
  let r := (d + n)%Z in
  if (date_min <=? r)%Z && (r <=? date_max)%Z then Returned r
  else RaisedOverflowError.

(** Python truthiness of an [int]. *)
Definition int_truthy (n : Z) : bool := negb (Z.eqb n 0).

Definition apply_global_payment_terms (issue : Z) (settings : Settings)
    : outcome (option Z) :=
  if negb (use_global_payment_terms settings)
     || negb (int_truthy (payment_terms_days settings))
  then Returned None
  else match date_add_days issue (payment_terms_days settings) with
       | Returned d => Returned (Some d)
       | RaisedOverflowError => RaisedOverflowError
       end.

(** The due-date computation of [_handle_invoice_form]; the explicit due
    date is the already parsed [due_date_str]. *)
Definition resolve_due_date (issue : Z) (explicit_due : option Z)
    (settings : Settings) : outcome (option Z) :=
  match explicit_due with
  | Some d => Returned (Some d)
  | None =>
      if use_global_payment_terms settings
         && int_truthy (payment_terms_days settings)
      then match date_add_days issue (payment_terms_days settings) with
           | Returned d => Returned (Some d)
           | RaisedOverflowError => RaisedOverflowError
           end
      else Returned None
  end.

(** ** Item construction of the handlers ([_handle_invoice_form], CSV
    import, API create and update all use [line_total = qty * price]). *)

Definition make_item (iid : Z) (pid : option Z) (desc : string) (qty price : Q)
    : dresult InvoiceItem :=
  dbind (dec_mul qty price) (fun line_total => DOk (mkItem iid pid desc qty price line_total)).

(** A payment row as the inbound payment webhook records it. *)
Definition make_payment (pid : Z) (amt : Q) (day : Z) : Payment :=
  mkPayment pid amt day None None day.

(** An invoice as [_handle_invoice_form] creates it, before
    [recalc_totals] runs (derived fields at their column defaults). *)
Definition new_invoice (st : invoice_status) (issue : Z) (due : option Z)
    (rate : option Q) (its : list InvoiceItem) (ps : list Payment) : Invoice :=
  mkInvoice 1 1 "INV-20251015-0001" issue due st None 0 rate 0 0 0 issue issue its ps.

(** ** Python string helpers

    Strings are [String.string]; a character stands for the code point
    U+0000..U+00FF of the same number. *)

(** [str.isspace()] on one character (U+0009..U+000D, U+001C..U+0020,
    U+0085, U+00A0). *)
Definition py_isspace (c : Ascii.ascii) : bool :=
  let n := Ascii.nat_of_ascii c in
  (Nat.leb 9 n && Nat.leb n 13) || (Nat.leb 28 n && Nat.leb n 32)
  || Nat.eqb n 133 || Nat.eqb n 160.

Fixpoint py_lstrip (s : string) : string :=
  match s with
  | EmptyString => EmptyString
  | String c rest => if py_isspace c then py_lstrip rest else s
  end.

Fixpoint str_rev (s : string) (acc : string) : string :=
  match s with
  | EmptyString => acc
  | String c rest => str_rev rest (String c acc)
  end.

(** [s.strip()]. *)
Definition py_strip (s : string) : string :=
  str_rev (py_lstrip (str_rev (py_lstrip s) EmptyString)) EmptyString.

(** [s.split(c)] with a one-character separator. *)
Fixpoint py_split (c : Ascii.ascii) (s : string) : list string :=
  match s with
  | EmptyString => [EmptyString]
  | String x rest =>
      let parts := py_split c rest in
      if Ascii.eqb x c then EmptyString :: parts
      else match parts with
           | p :: ps => String x p :: ps
           | [] => [String x EmptyString]
           end
  end.

(** [c.join(xs)]. *)
Fixpoint py_join (c : Ascii.ascii) (xs : list string) : string :=
  match xs with
  | [] => EmptyString
  | [x] => x
  | x :: rest => (x ++ String c (py_join c rest))%string
  end.

Definition is_digit (c : Ascii.ascii) : bool :=
  let n := Ascii.nat_of_ascii c in Nat.leb 48 n && Nat.leb n 57.

Definition digit_value (c : Ascii.ascii) : Z := Z.of_nat (Ascii.nat_of_ascii c - 48).

Definition digit_char (d : Z) : Ascii.ascii := Ascii.ascii_of_nat (48 + Z.to_nat d).

(** The digits of [int()]: digits with single underscores between them. *)
Fixpoint int_digits (s : string) (acc : Z) (after_us : bool) : option Z :=
  match s with
  | EmptyString => if after_us then None else Some acc
  | String c rest =>
      if is_digit c then int_digits rest (acc * 10 + digit_value c)%Z false
      else if Ascii.eqb c "_"%char && negb after_us then int_digits rest acc true
      else None
  end.

Definition int_body (u : string) (sign : Z) : option Z :=
  match u with
  | String c _ =>
      if is_digit c then
        match int_digits u 0 false with Some z => Some (sign * z)%Z | None => None end
      else None
  | EmptyString => None
  end.

(** [int(s)] in base 10: [None] where Python raises [ValueError]. *)
Definition py_int (s : string) : option Z :=
  match py_strip s with
  | EmptyString => None
  | String c rest =>
      if Ascii.eqb c "+"%char then int_body rest 1
      else if Ascii.eqb c "-"%char then int_body rest (-1)
      else int_body (String c rest) 1
  end.

(** Decimal digits of a natural number, most significant first. *)
Fixpoint dec_aux (fuel : nat) (n : Z) (acc : string) : string :=
  match fuel with
  | O => acc
  | S f =>
      let acc' := String (digit_char (n mod 10)) acc in
      if (n <? 10)%Z then acc' else dec_aux f (n / 10) acc'
  end.

Definition z_to_dec (n : Z) : string := dec_aux (S (Z.to_nat (Z.log2 n))) n EmptyString.

Fixpoint zeros (k : nat) : string :=
  match k with O => EmptyString | S k' => String "0"%char (zeros k') end.

(** [f"{n:0wd}"]: zero padding after the sign up to width [w]. *)
Definition fmt_0wd (w : nat) (n : Z) : string :=
  if (n <? 0)%Z then
    let ds := z_to_dec (- n) in
    String "-"%char (zeros (w - 1 - String.length ds) ++ ds)
  else
    let ds := z_to_dec n in (zeros (w - String.length ds) ++ ds)%string.

(** [all(p(c) for c in s)] and [c != x]. *)
Fixpoint str_forallb (p : Ascii.ascii -> bool) (s : string) : bool :=
  match s with
  | EmptyString => true
  | String c rest => p c && str_forallb p rest
  end.

Definition no_char (c : Ascii.ascii) (x : Ascii.ascii) : bool := negb (Ascii.eqb x c).

(** ** [generate_invoice_number]

    [db] holds the invoices in id order, the rows of this session
    included (the query autoflushes); [like_prefix p v] is the database's
    [v LIKE 'p%'] for the collation in use. *)

Section Numbering.
Variable like_prefix : string -> string -> bool.

Fixpoint last_match (p : string) (db : list Invoice) : option Invoice :=
  match db with
  | [] => None
  | i :: rest =>
      match last_match p rest with
      | Some j => Some j
      | None => if like_prefix p (invoice_number i) then Some i else None
      end
  end.

Definition generate_invoice_number (today_str : string) (db : list Invoice) : string :=
  let prefix := ("INV-" ++ today_str ++ "-")%string in
  let seq :=
    match last_match prefix db with
    | None => 1%Z
    | Some inv =>
        match py_int (last (py_split "-"%char (invoice_number inv)) EmptyString) with
        | Some k => (k + 1)%Z
        | None => 1%Z
        end
    end in
  ("INV-" ++ today_str ++ "-" ++ fmt_0wd 4 seq)%string.

(** The invoice [inv] with the number [num] ([Invoice(invoice_number=...)]). *)
Definition set_invoice_number (inv : Invoice) (num : string) : Invoice :=
  {| id := id inv; customer_id := customer_id inv; invoice_number := num;
     issue_date := issue_date inv; due_date := due_date inv; status := status inv;
     notes := notes inv; subtotal_amount := subtotal_amount inv; tax_rate := tax_rate inv;
     tax_amount := tax_amount inv; total_amount := total_amount inv;
     balance_due := balance_due inv; created_at := created_at inv;
     updated_at := updated_at inv; items := items inv; payments := payments inv |}.

(** Invoices created one after the other on one day, each numbered by
    [generate_invoice_number] and flushed before the next (the CSV import
    loop for rows without [invoice_number]). *)
Fixpoint issue_numbers (today_str : string) (tmpls : list Invoice) (db : list Invoice)
    : list string * list Invoice :=
  match tmpls with
  | [] => ([], db)
  | t :: ts =>
      let num := generate_invoice_number today_str db in
      let '(nums, db') := issue_numbers today_str ts (db ++ [set_invoice_number t num]) in
      (num :: nums, db')
  end.
End Numbering.

(** ** Outbound webhooks: [Settings.selected_webhook_events],
    [send_outbound_webhook] and the webhook part of [settings_view] *)

Record WebhookConfig := mkWebhookConfig {
  outbound_webhook_url : option string;
  outbound_webhook_enabled : bool;
  outbound_webhook_events : string
}.

Definition str_truthy (s : string) : bool := negb (String.eqb s EmptyString).

Definition opt_str_truthy (s : option string) : bool :=
  match s with Some t => str_truthy t | None => false end.

Definition selected_webhook_events (events : string) : list string :=
  if negb (str_truthy events) then []
  else filter str_truthy (map py_strip (py_split ","%char events)).

Definition str_mem (x : string) (xs : list string) : bool := existsb (String.eqb x) xs.

(** Whether [send_outbound_webhook(event_type, ...)] posts the event. *)
Definition webhook_dispatches (cfg : WebhookConfig) (event_type : string) : bool :=
  if negb (outbound_webhook_enabled cfg) || negb (opt_str_truthy (outbound_webhook_url cfg))
  then false
  else
    let selected := selected_webhook_events (outbound_webhook_events cfg) in
    if (negb (match selected with [] => true | _ => false end))
       && negb (str_mem event_type selected)
    then false
    else true.

(** [bool(request.form.get(name))]. *)
Definition form_flag (v : option string) : bool := opt_str_truthy v.

(** The event list [settings_view] stores from the three check boxes. *)
Definition ticked_events (created updated recorded : bool) : list string :=
  (if created then ["invoice.created"%string] else [])
  ++ (if updated then ["invoice.updated"%string] else [])
  ++ (if recorded then ["payment.recorded"%string] else []).

(** The webhook fields written by a POST to [settings_view]. *)
Definition webhook_config_from_form (enabled_field url_field : option string)
    (created updated recorded : option string) : WebhookConfig :=
  let url_val := py_strip (match url_field with Some u => u | None => EmptyString end) in
  {| outbound_webhook_enabled := form_flag enabled_field;
     outbound_webhook_url := if str_truthy url_val then Some url_val else None;
     outbound_webhook_events :=
       py_join ","%char (ticked_events (form_flag created) (form_flag updated)
                                       (form_flag recorded)) |}.

(** ** API keys: [_find_api_key] and [require_api_key]

    [sha256_hex] is [hashlib.sha256(raw.encode("utf-8")).hexdigest()];
    [keys] is the [api_keys] table. *)

Record ApiKey := mkApiKey {
  key_id : string;
  key_hash : string;
  can_read : bool;
  can_write : bool;
  active : bool;
  last_used_at : option Z
}.

Inductive auth_result :=
  | AuthOk (k : ApiKey)
  | Abort401 (description : string)
  | Abort403 (description : string).

(** The stored fields other than [last_used_at]. *)
Definition key_fields (k : ApiKey) : string * string * bool * bool * bool :=
  (key_id k, key_hash k, can_read k, can_write k, active k).

Section ApiAuth.
Variable sha256_hex : string -> string.

Definition find_api_key (keys : list ApiKey) (raw : string) : option ApiKey :=
  find (fun k => String.eqb (key_hash k) (sha256_hex raw) && active k) keys.

(** Python's [a or b] on two optional strings. *)
Definition str_or (a b : option string) : option string :=
  if opt_str_truthy a then a else b.

Definition touch_key (now : Z) (k : ApiKey) : ApiKey :=
  mkApiKey (key_id k) (key_hash k) (can_read k) (can_write k) (active k) (Some now).

(** [require_api_key(write)]: the outcome and the table after the commit;
    the key returned by [_find_api_key] is the row with its [key_id]
    (unique in the table). *)
Definition require_api_key (keys : list ApiKey) (header arg : option string)
    (write : bool) (now : Z) : auth_result * list ApiKey :=
  match str_or header arg with
  | None => (Abort401 "Missing API key", keys)
  | Some raw =>
      if negb (str_truthy raw) then (Abort401 "Missing API key", keys)
      else match find_api_key keys raw with
           | None => (Abort401 "Invalid or inactive API key", keys)
           | Some k =>
               if write && negb (can_write k)
               then (Abort403 "API key does not have write permission", keys)
               else (AuthOk (touch_key now k),
                     map (fun r => if String.eqb (key_id r) (key_id k)
                                   then touch_key now r else r) keys)
           end
  end.
End ApiAuth.

(** ** [list_invoices]: the status filter (the row order of
    [created_at.desc()] is not modelled) *)

Definition status_filter_of (arg : option string) : string :=
  match arg with
  | Some s => if str_truthy s then s else "open"%string
  | None => "open"%string
  end.

Definition invoice_listed (status_filter : string) (st : invoice_status) : bool :=
  if String.eqb status_filter "open" then
    status_eqb st Draft || status_eqb st Sent || status_eqb st Overdue
  else if String.eqb status_filter "draft" then status_eqb st Draft
  else if String.eqb status_filter "sent" then status_eqb st Sent
  else if String.eqb status_filter "overdue" then status_eqb st Overdue
  else if String.eqb status_filter "paid" then status_eqb st Paid
  else true.

(** ** Recording a payment ([add_payment], [api_webhook_payment]):
    the new row is appended to [invoice.payments], then [recalc_totals]. *)

Definition with_lines (inv : Invoice) (its : list InvoiceItem) (ps : list Payment) : Invoice :=
  {| id := id inv; customer_id := customer_id inv; invoice_number := invoice_number inv;
     issue_date := issue_date inv; due_date := due_date inv; status := status inv;
     notes := notes inv; subtotal_amount := subtotal_amount inv; tax_rate := tax_rate inv;
     tax_amount := tax_amount inv; total_amount := total_amount inv;
     balance_due := balance_due inv; created_at := created_at inv;
     updated_at := updated_at inv; items := its; payments := ps |}.

Definition record_payment (today : Z) (inv : Invoice) (p : Payment)
    : Invoice * option decimal_exception :=
  recalc_totals today (with_lines inv (items inv) (payments inv ++ [p])).

(** ** The item rows of [_handle_invoice_form]

    [parse_decimal s] is [Decimal(s)], [None] where it raises.  The four
    lists are the [getlist] values of [item_description], [item_quantity],
    [item_unit_price] and [item_product_id]; [zip] stops at the shortest of
    the first three.  Item ids are assigned by the database; the model
    records the row index in [item_id]. *)

Section FormRows.
Variable parse_decimal : string -> option Q.

(** [s or "0"]. *)
Definition or_zero (s : string) : string := if str_truthy s then s else "0"%string.

(** The product id of row [idx]: [int(product_ids[idx])] when that entry
    exists and is not empty, [None] where [int] raises. *)
Definition form_product_id (pids : list string) (idx : nat) : option Z :=
  match nth_error pids idx with
  | Some raw => if str_truthy raw then py_int raw else None
  | None => None
  end.

(** The items built from the rows, or the signal of the first
    [qty * price] that raises (it is not caught: the request fails). *)
Fixpoint form_item_rows (idx : nat) (descs qtys prices pids : list string)
    : dresult (list InvoiceItem) :=
  match descs, qtys, prices with
  | d :: ds, q :: qs, p :: ps =>
      let desc := py_strip d in
      if negb (str_truthy desc) then form_item_rows (S idx) ds qs ps pids
      else match parse_decimal (or_zero q), parse_decimal (or_zero p) with
           | Some qty, Some price =>
               dbind (make_item (Z.of_nat idx) (form_product_id pids idx) desc qty price)
                 (fun it => dbind (form_item_rows (S idx) ds qs ps pids)
                              (fun rest => DOk (it :: rest)))
           | _, _ => form_item_rows (S idx) ds qs ps pids
           end
  | _, _, _ => DOk []
  end.
End FormRows.

(** ** [import_invoices]: the loop over the CSV rows

    A row is the [csv.DictReader] dict: [None] for a column the file does
    not have or a short row does not reach.  [parse_date s] is
    [datetime.strptime(s, "%Y-%m-%d").date()], [None] where it raises;
    [parse_decimal] is [Decimal(s)] as above.  [same_email a b] is the
    comparison of the [email] column's collation, used by [filter_by].

    [flush_ok custs invs] is the database's verdict on a session holding
    the customers [custs] and the invoices [invs] with their items: the
    unique index on [invoice_number] under its collation, the lengths of
    the [String] columns and the ranges of the [Numeric] columns.  A
    rejected set of rows stays rejected when rows are added, and the rows
    an autoflush of the loop's queries writes reach their final values in
    the row that creates them; so checking [flush_ok] at the explicit
    [flush()] after a new customer and after a new invoice, and at the
    final commit, decides the outcome.  A failed flush is caught by the
    loop, but the session is then unusable: every later row fails and the
    final [db.session.commit()] raises, so nothing is written.
    [Settings.load()] is taken to find its row with no NULL column, so it
    adds and commits nothing.  Customer and invoice ids are given in
    insertion order, item ids are not modelled. *)

Record ImportRow := mkImportRow {
  row_customer_email : option string;
  row_customer_name : option string;
  row_issue_date : option string;
  row_due_date : option string;
  row_status : option string;
  row_notes : option string;
  row_invoice_number : option string;
  row_item_description : option string;
  row_item_quantity : option string;
  row_item_unit_price : option string
}.

Record ImportCustomer := mkImportCustomer {
  icust_id : Z;
  icust_name : string;
  icust_email : option string;
  icust_tax : Customer
}.

Record ImportState := mkImportState {
  imp_customers : list ImportCustomer;
  imp_invoices : list Invoice;
  imp_count : nat;
  imp_errors : nat;
  imp_failed : bool
}.

(** [(v or "").strip() or None]. *)
Definition strip_or_none (v : option string) : option string :=
  let s := py_strip (match v with Some x => x | None => EmptyString end) in
  if str_truthy s then Some s else None.

(** [str(v)]. *)
Definition py_str_opt (v : option string) : string :=
  match v with Some s => s | None => "None"%string end.

(** [(row.get("status") or "sent").strip() or "sent"], then anything but
    the five statuses becomes "sent". *)
Definition import_status (v : option string) : invoice_status :=
  let s := match strip_or_none (match v with
                                | Some x => if str_truthy x then Some x else Some "sent"%string
                                | None => Some "sent"%string
                                end) with
           | Some x => x
           | None => "sent"%string
           end in
  if String.eqb s "draft" then Draft
  else if String.eqb s "sent" then Sent
  else if String.eqb s "paid" then Paid
  else if String.eqb s "overdue" then Overdue
  else if String.eqb s "cancelled" then Cancelled
  else Sent.

(** [Customer.query.filter_by(email=e).first()]: the first customer, in
    insertion order, whose e-mail the collation [same_email] equates with
    [e]. *)
Definition find_customer_by_email (same_email : string -> string -> bool) (e : string)
    (cs : list ImportCustomer) : option ImportCustomer :=
  find (fun c => match icust_email c with Some e' => same_email e' e | None => false end) cs.

Section ImportLoop.
Variable like_prefix : string -> string -> bool.
Variable parse_date : string -> option Z.
Variable parse_decimal : string -> option Q.
Variable same_email : string -> string -> bool.
Variable flush_ok : list ImportCustomer -> list Invoice -> bool.
(** [date.today()], its [%Y%m%d] text, [datetime.utcnow()] and the settings. *)
Variable today : Z.
Variable today_str : string.
Variable now : Z.
Variable settings : Settings.

Definition opt_date (v : option string) : option Z :=
  match v with Some s => parse_date s | None => None end.

Definition import_error (st : ImportState) : ImportState :=
  mkImportState (imp_customers st) (imp_invoices st) (imp_count st) (S (imp_errors st))
    (imp_failed st).

(** The customer of a row: [None] when the row is skipped, [inl c] for a
    customer found by e-mail, [inr c] for the customer created from the
    name. *)
Definition import_customer (custs : list ImportCustomer) (row : ImportRow)
    : option (ImportCustomer + ImportCustomer) :=
  let email := strip_or_none (row_customer_email row) in
  let name := strip_or_none (row_customer_name row) in
  if negb (match email with Some _ => true | None => false end
           || match name with Some _ => true | None => false end)
  then None else
  let found := match email with
               | Some e => find_customer_by_email same_email e custs
               | None => None
               end in
  match found with
  | Some c => Some (inl c)
  | None =>
      match name with
      | Some n =>
          Some (inr (mkImportCustomer (Z.of_nat (S (List.length custs))) n email
                       (mkCustomer None true)))
      | None => None
      end
  end.

Definition resolved_customer (r : ImportCustomer + ImportCustomer) : ImportCustomer :=
  match r with inl c | inr c => c end.

(** The customers of the session once the row's customer is resolved. *)
Definition customers_after (custs : list ImportCustomer) (r : ImportCustomer + ImportCustomer)
    : list ImportCustomer :=
  match r with inl _ => custs | inr c => custs ++ [c] end.

(** Whether the flush after a new customer succeeds (no flush for a found one). *)
Definition customer_flush_ok (custs : list ImportCustomer) (invs : list Invoice)
    (r : ImportCustomer + ImportCustomer) : bool :=
  match r with inl _ => true | inr _ => flush_ok (customers_after custs r) invs end.

(** The number of a row's invoice: its stripped [invoice_number], else
    [generate_invoice_number()]. *)
Definition import_number (invs : list Invoice) (row : ImportRow) : string :=
  match strip_or_none (row_invoice_number row) with
  | Some n => n
  | None => generate_invoice_number like_prefix today_str invs
  end.

(** The invoice a row inserts, before its item. *)
Definition import_invoice (invs : list Invoice) (row : ImportRow) (c : ImportCustomer)
    (issue due : Z) : Invoice :=
  mkInvoice (Z.of_nat (S (List.length invs))) (icust_id c) (import_number invs row)
    issue (Some due) (import_status (row_status row)) (strip_or_none (row_notes row)) 0
    (Some (determine_tax_rate_for_customer (Some (icust_tax c)) settings))
    0 0 0 now now [] [].

(** [(row.get("item_description") or "").strip()]. *)
Definition import_description (row : ImportRow) : string :=
  py_strip (match row_item_description row with Some x => x | None => EmptyString end).

(** One iteration of the [for row in reader] loop. *)
Definition import_row (st : ImportState) (row : ImportRow) : ImportState :=
  if imp_failed st then import_error st else
  let invs := imp_invoices st in
  match import_customer (imp_customers st) row with
  | None => import_error st
  | Some r =>
      let custs := customers_after (imp_customers st) r in
      if negb (customer_flush_ok (imp_customers st) invs r)
      then import_error (mkImportState custs invs (imp_count st) (imp_errors st) true) else
      match opt_date (row_issue_date row), opt_date (row_due_date row) with
      | Some issue, Some due =>
          let inv := import_invoice invs row (resolved_customer r) issue due in
          if negb (flush_ok custs (invs ++ [inv]))
          then import_error (mkImportState custs invs (imp_count st) (imp_errors st) true) else
          let kept := mkImportState custs (invs ++ [inv]) (imp_count st) (imp_errors st) false in
          let desc := import_description row in
          if negb (str_truthy desc) then import_error kept else
          match parse_decimal (py_str_opt (row_item_quantity row)),
                parse_decimal (py_str_opt (row_item_unit_price row)) with
          | Some qty, Some price =>
              match make_item 0 None desc qty price with
              | DRaised _ => import_error kept
              | DOk it =>
                  let res := recalc_totals today (with_lines inv [it] []) in
                  match snd res with
                  | None =>
                      mkImportState custs (invs ++ [fst res]) (S (imp_count st))
                        (imp_errors st) false
                  | Some _ =>
                      import_error (mkImportState custs (invs ++ [fst res]) (imp_count st)
                                      (imp_errors st) false)
                  end
              end
          | _, _ => import_error kept
          end
      | _, _ => import_error (mkImportState custs invs (imp_count st) (imp_errors st) false)
      end
  end.

(** The loop and the final commit: [None] when the commit raises. *)
Definition import_invoices (custs : list ImportCustomer) (invs : list Invoice)
    (rows : list ImportRow) : option ImportState :=
  let st := fold_left import_row rows (mkImportState custs invs 0 0 false) in
  if imp_failed st || negb (flush_ok (imp_customers st) (imp_invoices st)) then None
  else Some st.
End ImportLoop.

(** ** [Settings.load]: the settings row, created with the column
    defaults when the table is empty; a NULL in [outbound_webhook_events],
    [payment_terms_days] or [use_global_payment_terms] is replaced (the
    other columns are NOT NULL without a fallback in [load]).  The readers
    below take a NULL as Python's falsy [None]. *)

Record SettingsRow := mkSettingsRow {
  srow_default_tax_rate : Q;
  srow_outbound_webhook_url : option string;
  srow_outbound_webhook_enabled : bool;
  srow_outbound_webhook_events : option string;
  srow_payment_terms_days : option Z;
  srow_use_global_payment_terms : option bool
}.

Definition settings_load (row : option SettingsRow) : SettingsRow :=
  let s := match row with
           | Some r => r
           | None => mkSettingsRow 0 None false (Some EmptyString) (Some 0%Z) (Some false)
           end in
  mkSettingsRow (srow_default_tax_rate s) (srow_outbound_webhook_url s)
    (srow_outbound_webhook_enabled s)
    (match srow_outbound_webhook_events s with Some e => Some e | None => Some EmptyString end)
    (match srow_payment_terms_days s with Some d => Some d | None => Some 0%Z end)
    (match srow_use_global_payment_terms s with Some b => Some b | None => Some false end).

Definition settings_of_row (s : SettingsRow) : Settings :=
  mkSettings (srow_default_tax_rate s)
    (match srow_payment_terms_days s with Some d => d | None => 0%Z end)
    (match srow_use_global_payment_terms s with Some b => b | None => false end).

Definition webhook_of_row (s : SettingsRow) : WebhookConfig :=
  mkWebhookConfig (srow_outbound_webhook_url s) (srow_outbound_webhook_enabled s)
    (match srow_outbound_webhook_events s with Some e => e | None => EmptyString end).

(** ** Concrete inputs (ordinal 739000 is 2024-04-28) *)

(** Scenario A of the spec: one item (2 x 50.00), 20% tax, no payment. *)
Definition scenario_A (st : invoice_status) : Invoice :=
  new_invoice st 739000 (Some 739030%Z) (Some 20)
    [mkItem 1 None "Consulting" 2 50 100] [].

(** Scenario B of the spec: scenario A plus a payment of 120.00. *)
Definition scenario_B (st : invoice_status) : Invoice :=
  new_invoice st 739000 (Some 739030%Z) (Some 20)
    [mkItem 1 None "Consulting" 2 50 100] [make_payment 1 120 739005].

(** A draft invoice saved from the form with no item rows. *)
Definition empty_draft : Invoice :=
  new_invoice Draft 739000 None None [] [].

(** One item of 0.5 x 0.01 as the form builds it: its line total 0.005
    has three fraction digits. *)
Definition half_cent_item : InvoiceItem := mkItem 1 None "Sample" (1 # 2) (1 # 100) (1 # 200).


(** One item of 1 x 0.50 at a 1.00% tax rate: the tax is exactly 0.005. *)
Definition half_cent_tax_invoice : Invoice :=
  new_invoice Sent 739000 None (Some 1) [mkItem 1 None "Sample" 1 (1 # 2) (1 # 2)] [].

(** One item of 1 x 1 at the tax rate 0.50000000000000000000000000001,
    which has 29 significant digits. *)
Definition long_rate_invoice : Invoice :=
  new_invoice Sent 739000 None
    (Some (50000000000000000000000000001 # 100000000000000000000000000000))
    [mkItem 1 None "Sample" 1 1 1] [].

(** One item of 120.00 and a payment of 120.00000000000000000000000000001. *)
Definition overpaid_invoice : Invoice :=
  new_invoice Sent 739000 None None [mkItem 1 None "Widget" 1 120 120]
    [make_payment 1 (12000000000000000000000000000001 # 100000000000000000000000000000) 739001].

(** Global payment terms of -5 days, as the settings form accepts them. *)
Definition negative_terms : Settings := mkSettings 20 (-5) true.

(** CSV rows, with dates written as ordinals and read by [py_int]. *)
Definition import_row_ok : ImportRow :=
  mkImportRow None (Some "Acme"%string) (Some "739000"%string) (Some "739030"%string)
    (Some "paid"%string) None None (Some "Hosting"%string) (Some "2"%string) (Some "50"%string).

Definition import_row_blank : ImportRow :=
  mkImportRow (Some "ap@bolt.example"%string) (Some "Bolt"%string) (Some "739000"%string)
    (Some "739030"%string) None None (Some "INV-9"%string) (Some "  "%string)
    (Some "1"%string) (Some "1"%string).

Definition import_row_bad_date : ImportRow :=
  mkImportRow None (Some " Cole "%string) (Some "2024-04-28"%string) (Some "739030"%string)
    None None None (Some "Audit"%string) (Some "1"%string) (Some "1"%string).

Definition import_row_taken : ImportRow :=
  mkImportRow None (Some "Dale"%string) (Some "739000"%string) (Some "739030"%string)
    None None (Some "INV-20251015-0001"%string) (Some "Audit"%string)
    (Some "1"%string) (Some "1"%string).

Definition import_settings : Settings := mkSettings 20 0 false.

Definition import_decimal (s : string) : option Q := option_map inject_Z (py_int s).

Fixpoint str_nodup (xs : list string) : bool :=
  match xs with
  | [] => true
  | x :: rest => negb (str_mem x rest) && str_nodup rest
  end.

(** A database whose one constraint is the unique [invoice_number],
    compared exactly. *)
Definition unique_numbers (custs : list ImportCustomer) (invs : list Invoice) : bool :=
  str_nodup (map invoice_number invs).

(** ** Sanity checks *)

Example scenario_A_totals :
  let r := recalc_totals 739010 (scenario_A Sent) in
  snd r = None /\
  subtotal_amount (fst r) == 100 /\ tax_amount (fst r) == 20 /\ total_amount (fst r) == 120
  /\ balance_due (fst r) == 120 /\ status (fst r) = Sent.
Proof. vm_compute. repeat split; reflexivity. Qed.

Example scenario_B_paid :
  let r := recalc_totals 739010 (scenario_B Sent) in
  snd r = None /\ balance_due (fst r) == 0 /\ status (fst r) = Paid.
Proof. vm_compute. repeat split; reflexivity. Qed.

Example scenario_C_overdue :
  status (fst (recalc_totals 739031 (scenario_A Sent))) = Overdue.
Proof. vm_compute. reflexivity. Qed.

Example scenario_D_override :
  determine_tax_rate_for_customer (Some (mkCustomer (Some 5) false)) (mkSettings 20 0 false) = 5.
Proof. reflexivity. Qed.

(** The form stores 0.5 x 0.01 as 0.005. *)
Example half_cent_item_built :
  make_item 1 None "Sample" (1 # 2) (1 # 100) = DOk half_cent_item.
Proof. vm_compute. reflexivity. Qed.

(** [1 * 0.50000000000000000000000000001] is rounded to 28 digits, 0.5,
    before the division: the tax is 0.00, not 0.01. *)
Example long_rate_tax :
  let r := recalc_totals 739010 long_rate_invoice in
  snd r = None /\ tax_amount (fst r) == 0.
Proof. vm_compute. split; reflexivity. Qed.

(** ** General lemmas *)

(** *** The decimal context *)

Lemma log10_fuel_spec (fuel : nat) (n : Z) :
  (0 < n)%Z -> (n < 2 ^ Z.of_nat fuel)%Z ->
  (0 <= log10_fuel fuel n /\ 10 ^ log10_fuel fuel n <= n < 10 ^ (log10_fuel fuel n + 1))%Z.
Proof.
  revert n. induction fuel as [|f IH]; intros n Hn Hf; [change (2 ^ Z.of_nat 0)%Z with 1%Z in Hf; lia|].
  cbn [log10_fuel]. destruct (n <? 10)%Z eqn:E.
  - apply Z.ltb_lt in E. change (10 ^ 0)%Z with 1%Z. change (10 ^ (0 + 1))%Z with 10%Z. lia.
  - apply Z.ltb_ge in E.
    assert (Hm : (1 <= n / 10)%Z) by (apply Z.div_le_lower_bound; lia).
    assert (Hm2 : (n / 10 < 2 ^ Z.of_nat f)%Z).
    { rewrite Nat2Z.inj_succ, Z.pow_succ_r in Hf by lia.
      apply Z.div_lt_upper_bound; lia. }
    destruct (IH (n / 10)%Z ltac:(lia) Hm2) as (H0 & H1 & H2).
    set (l := log10_fuel f (n / 10)) in *.
    assert (Hd := Z.div_mod n 10 ltac:(lia)).
    assert (Hr := Z.mod_pos_bound n 10 ltac:(lia)).
    replace (1 + l + 1)%Z with (Z.succ (l + 1)) by ring.
    replace (1 + l)%Z with (Z.succ l) by ring.
    rewrite !Z.pow_succ_r by lia. lia.
Qed.

Lemma zlog10_spec (n : Z) :
  (0 < n)%Z -> (0 <= zlog10 n /\ 10 ^ zlog10 n <= n < 10 ^ (zlog10 n + 1))%Z.
Proof.
  intros Hn. unfold zlog10. apply log10_fuel_spec; [exact Hn|].
  rewrite Nat2Z.inj_succ, Z2Nat.id by (apply Z.log2_nonneg).
  apply Z.log2_spec. exact Hn.
Qed.

Lemma zlog10_unique (n l : Z) :
  (0 <= l)%Z -> (10 ^ l <= n < 10 ^ (l + 1))%Z -> zlog10 n = l.
Proof.
  intros Hl Hb.
  assert (Hn : (0 < n)%Z) by (pose proof (Z.pow_pos_nonneg 10 l); lia).
  destruct (zlog10_spec n Hn) as (H0 & H1 & H2).
  destruct (Z.lt_trichotomy (zlog10 n) l) as [Hlt|[Heq|Hgt]]; [|exact Heq|].
  - assert (10 ^ (zlog10 n + 1) <= 10 ^ l)%Z by (apply Z.pow_le_mono_r; lia). lia.
  - assert (10 ^ (l + 1) <= 10 ^ zlog10 n)%Z by (apply Z.pow_le_mono_r; lia). lia.
Qed.

(** Powers of ten in [Q]. *)
Lemma pow10_pos (k : Z) : 0 < 10 ^ k.
Proof. apply Qpower_0_lt. reflexivity. Qed.

Lemma pow10_add (a b : Z) : 10 ^ (a + b) == 10 ^ a * 10 ^ b.
Proof. apply Qpower_plus. discriminate. Qed.

Lemma pow10_Z (k : Z) : (0 <= k)%Z -> inject_Z (10 ^ k) == 10 ^ k.
Proof. intros H. apply Zpower_Qpower. exact H. Qed.

Lemma pow10_lt (a b : Z) : (a < b)%Z -> 10 ^ a < 10 ^ b.
Proof. intros H. apply Qpower_lt_compat_l; [exact H | reflexivity]. Qed.

Lemma pow10_le (a b : Z) : (a <= b)%Z -> 10 ^ a <= 10 ^ b.
Proof. intros H. apply Qpower_le_compat_l; [exact H | discriminate]. Qed.

Lemma pow10_lt_inv (a b : Z) : 10 ^ a < 10 ^ b -> (a < b)%Z.
Proof. intros H. apply (Qpower_lt_compat_l_inv 10); [exact H | reflexivity]. Qed.

Lemma Qabs_num_den (x : Q) : Qabs x * inject_Z (Zpos (Qden x)) == inject_Z (Z.abs (Qnum x)).
Proof.
  destruct x as [n d]. unfold Qabs, Qeq, Qmult, inject_Z. simpl. lia.
Qed.

Lemma adjusted_spec (x : Q) :
  ~ x == 0 -> 10 ^ adjusted x <= Qabs x < 10 ^ (adjusted x + 1).
Proof.
  intros Hx. unfold adjusted.
  set (n := Z.abs (Qnum x)). set (d := Zpos (Qden x)).
  assert (Hn : (0 < n)%Z).
  { subst n. destruct x as [[|p|p] q]; simpl; try lia. exfalso. apply Hx. reflexivity. }
  destruct (zlog10_spec n Hn) as (Ha0 & Ha1 & Ha2).
  destruct (zlog10_spec d ltac:(subst d; lia)) as (Hb0 & Hb1 & Hb2).
  set (a := zlog10 n) in *. set (b := zlog10 d) in *.
  assert (HN := Qabs_num_den x). fold n d in HN.
  assert (Qa1 : 10 ^ a <= inject_Z n) by (rewrite <- pow10_Z by lia; rewrite <- Zle_Qle; lia).
  assert (Qa2 : inject_Z n < 10 ^ (a + 1)) by (rewrite <- pow10_Z by lia; rewrite <- Zlt_Qlt; lia).
  assert (Qb1 : 10 ^ b <= inject_Z d) by (rewrite <- pow10_Z by lia; rewrite <- Zle_Qle; lia).
  assert (Qb2 : inject_Z d < 10 ^ (b + 1)) by (rewrite <- pow10_Z by lia; rewrite <- Zlt_Qlt; lia).
  assert (Hpos : 0 < Qabs x).
  { apply Qnot_le_lt. intro Hc. apply Qabs_Qle_condition in Hc. apply Hx.
    apply Qle_antisym; lra. }
  pose proof (pow10_pos b) as Pb. pose proof (pow10_pos (b + 1)) as Pb1.
  destruct (Qle_bool (10 ^ (a - b)) (Qabs x)) eqn:E.
  - apply Qle_bool_iff in E. split; [exact E|].
    assert (Hp : 10 ^ (a + 1) == 10 ^ (a - b + 1) * 10 ^ b)
      by (rewrite <- pow10_add; replace (a - b + 1 + b)%Z with (a + 1)%Z by ring; reflexivity).
    apply (Qmult_lt_r _ _ (10 ^ b) Pb). rewrite <- Hp.
    apply (Qle_lt_trans _ (Qabs x * inject_Z d)); [|rewrite HN; exact Qa2].
    rewrite !(Qmult_comm (Qabs x)). apply Qmult_le_compat_r; [exact Qb1 | lra].
  - assert (E' : Qabs x < 10 ^ (a - b)).
    { apply Qnot_le_lt. intro H. apply Qle_bool_iff in H. congruence. }
    replace (a - b - 1 + 1)%Z with (a - b)%Z by ring. split; [|exact E'].
    assert (Hp : 10 ^ a == 10 ^ (a - b - 1) * 10 ^ (b + 1))
      by (rewrite <- pow10_add; replace (a - b - 1 + (b + 1))%Z with a by ring; reflexivity).
    apply (Qmult_le_r _ _ (10 ^ (b + 1)) Pb1). rewrite <- Hp.
    apply (Qle_trans _ (Qabs x * inject_Z d)); [rewrite HN; exact Qa1|].
    rewrite !(Qmult_comm (Qabs x)). apply Qmult_le_compat_r; [lra | lra].
Qed.

Lemma adjusted_unique (x : Q) (e : Z) :
  ~ x == 0 -> 10 ^ e <= Qabs x < 10 ^ (e + 1) -> adjusted x = e.
Proof.
  intros Hx [H1 H2]. destruct (adjusted_spec x Hx) as [A1 A2].
  assert (L1 : (e < adjusted x + 1)%Z) by (apply pow10_lt_inv; lra).
  assert (L2 : (adjusted x < e + 1)%Z) by (apply pow10_lt_inv; lra).
  lia.
Qed.

Lemma adjusted_comp (x y : Q) : ~ x == 0 -> x == y -> adjusted x = adjusted y.
Proof.
  intros Hx Hxy. symmetry. apply adjusted_unique.
  - intro Hy. apply Hx. rewrite Hxy. exact Hy.
  - rewrite <- Hxy. apply adjusted_spec. exact Hx.
Qed.

Ltac qabs_lra :=
  match goal with
  | |- context [Qabs ?e] => pattern (Qabs e); apply Qabs_case; intros; lra
  end.

(** [round_half_even] is the nearest integer, a tie going to the even one. *)
Lemma round_half_even_spec (y : Q) :
  Qabs (y - inject_Z (round_half_even y)) < 1 # 2 \/
  (Qabs (y - inject_Z (round_half_even y)) == 1 # 2 /\ Z.even (round_half_even y) = true).
Proof.
  unfold round_half_even. set (f := Qfloor y).
  assert (Hlo : inject_Z f <= y) by apply Qfloor_le.
  assert (Hhi : y < inject_Z f + 1).
  { pose proof (Qlt_floor y) as H. rewrite inject_Z_plus in H. exact H. }
  destruct (Qle_bool (1 # 2) (y - inject_Z f)) eqn:E1.
  - apply Qle_bool_iff in E1.
    destruct (Qeq_bool (y - inject_Z f) (1 # 2)) eqn:E2.
    + apply Qeq_bool_iff in E2.
      destruct (Z.even f) eqn:E3.
      * right. split; [qabs_lra | exact E3].
      * right. split.
        -- rewrite inject_Z_plus; change (inject_Z 1) with (1 # 1); qabs_lra.
        -- rewrite Z.even_add, E3. reflexivity.
    + apply Qeq_bool_neq in E2.
      apply Qle_lt_or_eq in E1. destruct E1 as [E1|E1].
      * left. rewrite inject_Z_plus; change (inject_Z 1) with (1 # 1); qabs_lra.
      * exfalso. apply E2. symmetry. exact E1.
  - assert (E1' : y - inject_Z f < 1 # 2).
    { apply Qnot_le_lt. intro H. apply Qle_bool_iff in H. congruence. }
    left. qabs_lra.
Qed.

(** Two integers nearest to [y], ties to even, are equal. *)
Lemma half_even_unique (y : Q) (c1 c2 : Z) :
  (Qabs (y - inject_Z c1) < 1 # 2 \/ (Qabs (y - inject_Z c1) == 1 # 2 /\ Z.even c1 = true)) ->
  (Qabs (y - inject_Z c2) < 1 # 2 \/ (Qabs (y - inject_Z c2) == 1 # 2 /\ Z.even c2 = true)) ->
  c1 = c2.
Proof.
  intros H1 H2.
  assert (B1 : Qabs (y - inject_Z c1) <= 1 # 2) by (destruct H1 as [H|[H _]]; lra).
  assert (B2 : Qabs (y - inject_Z c2) <= 1 # 2) by (destruct H2 as [H|[H _]]; lra).
  apply Qabs_Qle_condition in B1, B2.
  assert (U1 : (c1 < c2 + 1)%Z).
  { rewrite Zlt_Qlt, inject_Z_plus. change (inject_Z 1) with (1 # 1).
    destruct H1 as [H|[_ E1]]; [apply Qabs_Qlt_condition in H; lra|].
    destruct H2 as [H|[_ E2]]; [apply Qabs_Qlt_condition in H; lra|].
    assert (inject_Z c1 <= inject_Z (c2 + 1)) by (rewrite inject_Z_plus; change (inject_Z 1) with (1 # 1); lra).
    rewrite <- Zle_Qle in H.
    destruct (Z.eq_dec c1 (c2 + 1)) as [Ee|Ee].
    - exfalso. rewrite Ee, Z.even_add, E2 in E1. discriminate E1.
    - assert (c1 < c2 + 1)%Z by lia. rewrite Zlt_Qlt, inject_Z_plus in H0. exact H0. }
  assert (U2 : (c2 < c1 + 1)%Z).
  { rewrite Zlt_Qlt, inject_Z_plus. change (inject_Z 1) with (1 # 1).
    destruct H2 as [H|[_ E2]]; [apply Qabs_Qlt_condition in H; lra|].
    destruct H1 as [H|[_ E1]]; [apply Qabs_Qlt_condition in H; lra|].
    assert (inject_Z c2 <= inject_Z (c1 + 1)) by (rewrite inject_Z_plus; change (inject_Z 1) with (1 # 1); lra).
    rewrite <- Zle_Qle in H.
    destruct (Z.eq_dec c2 (c1 + 1)) as [Ee|Ee].
    - exfalso. rewrite Ee, Z.even_add, E1 in E2. discriminate E2.
    - assert (c2 < c1 + 1)%Z by lia. rewrite Zlt_Qlt, inject_Z_plus in H0. exact H0. }
  lia.
Qed.

Lemma round_half_even_comp (x y : Q) : x == y -> round_half_even x = round_half_even y.
Proof.
  intros H. apply (half_even_unique x).
  - apply round_half_even_spec.
  - rewrite H. apply round_half_even_spec.
Qed.

Lemma round_half_even_Z (m : Z) : round_half_even (inject_Z m) = m.
Proof.
  apply (half_even_unique (inject_Z m)); [apply round_half_even_spec|].
  left. setoid_replace (inject_Z m - inject_Z m) with 0 by ring. reflexivity.
Qed.

Lemma round_half_even_close (y : Q) : Qabs (y - inject_Z (round_half_even y)) <= 1 # 2.
Proof. destruct (round_half_even_spec y) as [H|[H _]]; lra. Qed.

Lemma round_half_even_nonpos (y : Q) : y <= 0 -> (round_half_even y <= 0)%Z.
Proof.
  intros Hy. pose proof (round_half_even_close y) as H. apply Qabs_Qle_condition in H.
  destruct (Z.le_gt_cases (round_half_even y) 0) as [L|L]; [exact L|].
  exfalso. assert (L' : (1 <= round_half_even y)%Z) by lia.
  rewrite Zle_Qle in L'. change (inject_Z 1) with (1 # 1) in L'. lra.
Qed.

Lemma round_half_even_bound (y : Q) (N : Z) :
  Qabs y < inject_Z N -> (Z.abs (round_half_even y) <= N)%Z.
Proof.
  intros Hy. pose proof (round_half_even_close y) as H.
  apply Qabs_Qle_condition in H. apply Qabs_Qlt_condition in Hy.
  set (c := round_half_even y) in *.
  assert (U : (c < N + 1)%Z) by (rewrite Zlt_Qlt, inject_Z_plus; change (inject_Z 1) with (1 # 1); lra).
  assert (V : (- c < N + 1)%Z) by (rewrite Zlt_Qlt, inject_Z_plus, inject_Z_opp; change (inject_Z 1) with (1 # 1); lra).
  lia.
Qed.

Lemma Qabs_inject_Z (m : Z) : Qabs (inject_Z m) == inject_Z (Z.abs m).
Proof. destruct m; reflexivity. Qed.

Lemma Qabs_pow10 (k : Z) : Qabs (10 ^ k) == 10 ^ k.
Proof. apply Qabs_pos. apply Qlt_le_weak, pow10_pos. Qed.

Lemma zlog10_mul_pow (n s : Z) :
  (0 < n)%Z -> (0 <= s)%Z -> zlog10 (n * 10 ^ s) = (zlog10 n + s)%Z.
Proof.
  intros Hn Hs. destruct (zlog10_spec n Hn) as (H0 & H1 & H2).
  apply zlog10_unique; [lia|].
  replace (zlog10 n + s + 1)%Z with (zlog10 n + 1 + s)%Z by ring.
  rewrite (Z.pow_add_r 10 (zlog10 n + 1) s), (Z.pow_add_r 10 (zlog10 n) s) by lia.
  pose proof (Z.pow_pos_nonneg 10 s ltac:(lia) Hs).
  split; nia.
Qed.

Lemma ctx_round_zero : ctx_round 0 = DOk 0.
Proof. reflexivity. Qed.

(** A value of at most 28 significant digits within the exponent range is
    left as it is. *)
Lemma ctx_round_exact (m j : Z) :
  m <> 0%Z -> (Z.abs m < 10 ^ 28)%Z -> (dec_etiny <= j)%Z ->
  (zlog10 (Z.abs m) + j <= dec_emax)%Z ->
  ctx_round (inject_Z m * 10 ^ j) = DOk (Qred (inject_Z m * 10 ^ j)).
Proof.
  intros Hm Hb Hj Hov. unfold ctx_round.
  set (x := inject_Z m * 10 ^ j).
  assert (Hx : ~ x == 0).
  { subst x. intro H. apply Qmult_integral in H. destruct H as [H|H].
    - apply Hm. apply inject_Z_injective. exact H.
    - pose proof (pow10_pos j). lra. }
  destruct (Qeq_bool x 0) eqn:E0; [apply Qeq_bool_iff in E0; contradiction|].
  destruct (zlog10_spec (Z.abs m) ltac:(lia)) as (L0 & L1 & L2).
  set (l := zlog10 (Z.abs m)) in *.
  assert (Ll : (l <= 27)%Z).
  { destruct (Z.le_gt_cases l 27) as [H|H]; [exact H|].
    assert (10 ^ 28 <= 10 ^ l)%Z by (apply Z.pow_le_mono_r; lia). lia. }
  assert (Hadj : adjusted x = (l + j)%Z).
  { apply adjusted_unique; [exact Hx|]. subst x.
    rewrite Qabs_Qmult, Qabs_inject_Z, Qabs_pow10.
    replace (l + j + 1)%Z with (l + 1 + j)%Z by ring.
    rewrite (pow10_add l j), (pow10_add (l + 1) j).
    rewrite <- (pow10_Z l), <- (pow10_Z (l + 1)) by lia.
    pose proof (Z.pow_pos_nonneg 10 l ltac:(lia) L0).
    split.
    - apply Qmult_le_compat_r; [rewrite <- Zle_Qle; lia | apply Qlt_le_weak, pow10_pos].
    - apply Qmult_lt_compat_r; [apply pow10_pos | rewrite <- Zlt_Qlt; lia]. }
  rewrite Hadj. unfold dec_prec.
  set (k := Z.max (l + j - (28 - 1)) dec_etiny).
  assert (Hk : (k <= j)%Z) by (unfold k; lia).
  assert (Hs : x / 10 ^ k == inject_Z (m * 10 ^ (j - k))).
  { subst x. rewrite inject_Z_mult, pow10_Z by lia.
    setoid_replace (10 ^ j) with (10 ^ (j - k) * 10 ^ k)
      by (rewrite <- pow10_add; replace (j - k + k)%Z with j by ring; reflexivity).
    field. pose proof (pow10_pos k) as Pk. intro Hz. rewrite Hz in Pk. discriminate. }
  rewrite (round_half_even_comp _ _ Hs), round_half_even_Z.
  rewrite Z.abs_mul, (Z.abs_eq (10 ^ (j - k))) by (apply Z.pow_nonneg; lia).
  rewrite zlog10_mul_pow by lia. fold l.
  destruct (dec_emax <? l + (j - k) + k)%Z eqn:Eo; [apply Z.ltb_lt in Eo; lia|].
  f_equal. apply Qred_complete. subst x.
  rewrite inject_Z_mult, pow10_Z by lia.
  rewrite <- Qmult_assoc, <- pow10_add. replace (j - k + k)%Z with j by ring. reflexivity.
Qed.

Lemma ctx_round_comp (x y : Q) : x == y -> ctx_round x = ctx_round y.
Proof.
  intros H. unfold ctx_round.
  destruct (Qeq_bool x 0) eqn:Ex; destruct (Qeq_bool y 0) eqn:Ey; try reflexivity.
  - apply Qeq_bool_iff in Ex. apply Qeq_bool_neq in Ey. exfalso. apply Ey. rewrite <- H. exact Ex.
  - apply Qeq_bool_iff in Ey. apply Qeq_bool_neq in Ex. exfalso. apply Ex. rewrite H. exact Ey.
  - apply Qeq_bool_neq in Ex. rewrite (adjusted_comp x y Ex H).
    rewrite (round_half_even_comp (x / _) (y / _)) by (rewrite H; reflexivity).
    reflexivity.
Qed.

(** Rounding in the context is idempotent. *)
Lemma ctx_round_idem (x r : Q) : ctx_round x = DOk r -> ctx_round r = DOk r.
Proof.
  intros H. pose proof H as H'. unfold ctx_round in H.
  destruct (Qeq_bool x 0) eqn:E0; [injection H as <-; reflexivity|].
  apply Qeq_bool_neq in E0.
  set (k := Z.max (adjusted x - (dec_prec - 1)) dec_etiny) in *.
  set (c := round_half_even (x / 10 ^ k)) in *.
  destruct (dec_emax <? zlog10 (Z.abs c) + k)%Z eqn:Eo; [discriminate H|].
  apply Z.ltb_ge in Eo.
  assert (Hr : r = Qred (inject_Z c * 10 ^ k)) by congruence. subst r. clear H H'.
  rewrite (ctx_round_comp _ (inject_Z c * 10 ^ k)) by apply Qred_correct.
  destruct (Z.eq_dec c 0) as [Hc|Hc].
  - rewrite Hc. rewrite (ctx_round_comp _ 0) by (rewrite Qmult_0_l; reflexivity).
    rewrite ctx_round_zero. f_equal.
    all: transitivity (Qred 0); [reflexivity|apply Qred_complete; rewrite Qmult_0_l; reflexivity].
  - assert (Hb : (Z.abs c <= 10 ^ 28)%Z).
    { apply round_half_even_bound.
      destruct (adjusted_spec x E0) as [_ A2].
      pose proof (pow10_pos k) as Pk.
      unfold Qdiv. rewrite Qabs_Qmult, Qabs_Qinv, Qabs_pow10.
      rewrite pow10_Z by lia.
      apply (Qmult_lt_r _ _ (10 ^ k) Pk).
      setoid_replace (Qabs x * / 10 ^ k * 10 ^ k) with (Qabs x) by (field; lra).
      rewrite <- pow10_add. apply (Qlt_le_trans _ _ _ A2). apply pow10_le.
      unfold k, dec_prec. lia. }
    assert (Hk : (dec_etiny <= k)%Z) by (unfold k; lia).
    destruct (Z.eq_dec (Z.abs c) (10 ^ 28)) as [Ht|Ht].
    + assert (Hc10 : c = (c / 10 * 10)%Z).
      { assert (Hd : (10 | c)%Z).
        { apply Z.divide_abs_r. rewrite Ht. exists (10 ^ 27)%Z. reflexivity. }
        destruct Hd as [q ->]. rewrite Z.div_mul by lia. reflexivity. }
      assert (Habs : Z.abs (c / 10) = (10 ^ 27)%Z).
      { rewrite Hc10 in Ht. rewrite Z.abs_mul in Ht. simpl (Z.abs 10) in Ht.
        change (10 ^ 28)%Z with (10 ^ 27 * 10)%Z in Ht. lia. }
      assert (Hq : inject_Z c * 10 ^ k == inject_Z (c / 10) * 10 ^ (k + 1)).
      { rewrite Hc10 at 1. rewrite inject_Z_mult, pow10_add. ring. }
      rewrite (ctx_round_comp _ _ Hq).
      rewrite ctx_round_exact.
      * f_equal. apply Qred_complete. symmetry. exact Hq.
      * intro H0. rewrite H0 in Habs. discriminate Habs.
      * rewrite Habs. reflexivity.
      * lia.
      * rewrite Habs. rewrite Ht in Eo.
        rewrite (zlog10_unique (10 ^ 27) 27) by (lia || (vm_compute; split; discriminate)).
        rewrite (zlog10_unique (10 ^ 28) 28) in Eo by (lia || (vm_compute; split; discriminate)). lia.
    + apply ctx_round_exact; [exact Hc | lia | exact Hk | exact Eo].
Qed.

(** A value that is not positive rounds to a value that is not positive. *)
Lemma ctx_round_nonpos (x r : Q) : x <= 0 -> ctx_round x = DOk r -> r <= 0.
Proof.
  intros Hx H. unfold ctx_round in H.
  destruct (Qeq_bool x 0); [injection H as <-; lra|].
  set (k := Z.max (adjusted x - (dec_prec - 1)) dec_etiny) in *.
  destruct (dec_emax <? _)%Z; [discriminate H|].
  assert (Hr : r = Qred (inject_Z (round_half_even (x / 10 ^ k)) * 10 ^ k)) by congruence.
  subst r. rewrite Qred_correct.
  pose proof (pow10_pos k) as Pk.
  assert (Hc : (round_half_even (x / 10 ^ k) <= 0)%Z).
  { apply round_half_even_nonpos. apply Qle_shift_div_r; [exact Pk|]. lra. }
  rewrite Zle_Qle in Hc.
  setoid_replace 0 with (0 * 10 ^ k) by ring.
  apply Qmult_le_compat_r; [exact Hc | lra].
Qed.


Lemma dec_sum_snoc (xs : list Q) (x : Q) :
  dec_sum (xs ++ [x]) = dbind (dec_sum xs) (fun s => dec_add s x).
Proof. unfold dec_sum. rewrite fold_left_app. reflexivity. Qed.



(** *** [recalc_totals] *)

(** [recalc_totals] re-applied sees the totals it wrote: the status
    decision is idempotent for fixed totals. *)
Lemma next_status_idem (today : Z) (due : option Z) (st : invoice_status) (t b : Q) :
  next_status today due (next_status today due st t b) t b = next_status today due st t b.
Proof.
  unfold next_status.
  destruct (dec_le b 0 && dec_lt 0 t) eqn:Hp; [reflexivity|].
  destruct (match due with Some d => (d <? today)%Z | None => false end) eqn:Hd;
    destruct st; simpl; rewrite ?Hd; reflexivity.
Qed.

(** A completed [recalc_totals]: the four [Decimal] computations and the
    invoice they produce. *)
Lemma recalc_ok (today : Z) (inv : Invoice) :
  snd (recalc_totals today inv) = None ->
  exists subtotal tax total balance,
    dec_sum (map line_total (items inv)) = DOk subtotal
    /\ dbind (dec_mul subtotal (match tax_rate inv with Some r => r | None => 0 end))
         (fun p => dbind (dec_div p 100) quantize_cents) = DOk tax
    /\ dec_add subtotal tax = DOk total
    /\ dbind (dec_sum (map amount (payments inv))) (fun paid => dec_sub total paid)
       = DOk balance
    /\ fst (recalc_totals today inv)
       = set_totals inv subtotal tax total balance
           (next_status today (due_date inv) (status inv) total balance).
Proof.
  unfold recalc_totals. cbv zeta.
  destruct (dec_sum (map line_total (items inv))) as [s|e] eqn:E1; [|discriminate].
  destruct (dbind (dec_mul s _) _) as [t|e] eqn:E2; [|discriminate].
  destruct (dec_add s t) as [tot|e] eqn:E3; [|discriminate].
  destruct (dbind (dec_sum (map amount (payments inv))) _) as [b|e] eqn:E4; [|discriminate].
  intros _. exists s, t, tot, b.
  repeat split; first [reflexivity | assumption].
Qed.

(** A [recalc_totals] that raises leaves the status as it was. *)
Lemma recalc_raised (today : Z) (inv : Invoice) :
  snd (recalc_totals today inv) <> None ->
  status (fst (recalc_totals today inv)) = status inv.
Proof.
  unfold recalc_totals. cbv zeta. intros H.
  destruct (dec_sum (map line_total (items inv))) as [s|e]; [|reflexivity].
  destruct (dbind (dec_mul s _) _) as [t|e]; [|reflexivity].
  destruct (dec_add s t) as [tot|e]; [|reflexivity].
  destruct (dbind (dec_sum (map amount (payments inv))) _) as [b|e]; [|reflexivity].
  exfalso. apply H. reflexivity.
Qed.

(** The fields [recalc_totals] never assigns. *)
Lemma recalc_frame (today : Z) (inv : Invoice) :
  let r := fst (recalc_totals today inv) in
  items r = items inv /\ payments r = payments inv /\
  id r = id inv /\ customer_id r = customer_id inv /\
  invoice_number r = invoice_number inv /\ issue_date r = issue_date inv /\
  due_date r = due_date inv /\ notes r = notes inv /\ tax_rate r = tax_rate inv /\
  created_at r = created_at inv /\ updated_at r = updated_at inv.
Proof.
  unfold recalc_totals. cbv zeta.
  destruct (dec_sum (map line_total (items inv))) as [s|e]; [|repeat split].
  destruct (dbind (dec_mul s _) _) as [t|e]; [|repeat split].
  destruct (dec_add s t) as [tot|e]; [|repeat split].
  destruct (dbind (dec_sum (map amount (payments inv))) _) as [b|e]; repeat split.
Qed.

(** A cancelled invoice stays cancelled unless the [paid] condition holds
    on the recomputed amounts. *)
Lemma cancelled_kept_unless_settled (today : Z) (inv : Invoice) :
  status inv = Cancelled ->
  let r := fst (recalc_totals today inv) in
  (dec_le (balance_due r) 0 && dec_lt 0 (total_amount r)) = false ->
  status r = Cancelled.
Proof.
  intros Hs r. subst r.
  destruct (snd (recalc_totals today inv)) eqn:Hn.
  - rewrite recalc_raised by (rewrite Hn; discriminate). intros _; exact Hs.
  - destruct (recalc_ok today inv Hn) as (s & t & tot & b & _ & _ & _ & _ & E).
    rewrite E. unfold set_totals. cbn [total_amount balance_due status].
    intros Hp. unfold next_status. rewrite Hp, Hs.
    destruct (due_date inv) as [d|]; [destruct (d <? today)%Z|]; reflexivity.
Qed.

(** ** Claims *)

(** C1 (code_bug): a cancelled invoice whose payments cover its total is
    switched to [Paid] by [recalc_totals]: the [paid] branch has no
    [cancelled] guard, unlike the [overdue] and [sent] branches. *)
Theorem C1_cancelled_settled_becomes_paid :
  status (scenario_B Cancelled) = Cancelled /\
  snd (recalc_totals 739010 (scenario_B Cancelled)) = None /\
  status (fst (recalc_totals 739010 (scenario_B Cancelled))) = Paid.
Proof. split; [reflexivity|]. vm_compute. split; reflexivity. Qed.

(** C2, as stated: recalculation never turns [draft] into [sent]. *)
Lemma C2_counterexample :
  ~ (forall today inv, status inv = Draft -> status (fst (recalc_totals today inv)) <> Sent).
Proof.
  intro H. apply (H 739010%Z empty_draft); [reflexivity | vm_compute; reflexivity].
Qed.

(** C2 (amended): a [recalc_totals] that completes never preserves
    [draft]: a draft invoice becomes [paid] when its total is positive and
    its balance is not, else [overdue] when its due date is before today,
    else [sent].  A [recalc_totals] that raises a [Decimal] signal (an
    amount beyond the context) leaves the status as it was. *)
Theorem C2_draft_recomputed (today : Z) (inv : Invoice) :
  status inv = Draft ->
  let r := recalc_totals today inv in
  (snd r = None ->
   status (fst r) =
     (if dec_le (balance_due (fst r)) 0 && dec_lt 0 (total_amount (fst r)) then Paid
      else if match due_date inv with Some d => (d <? today)%Z | None => false end
      then Overdue else Sent)
   /\ status (fst r) <> Draft)
  /\ (snd r <> None -> status (fst r) = Draft).
Proof.
  intros Hs r. subst r. split.
  - intros Hn. destruct (recalc_ok today inv Hn) as (s & t & tot & b & _ & _ & _ & _ & E).
    rewrite E. unfold set_totals. cbn [status balance_due total_amount].
    unfold next_status. rewrite Hs. simpl.
    destruct (dec_le b 0 && dec_lt 0 tot); [split; [reflexivity | discriminate]|].
    destruct (match due_date inv with Some d => (d <? today)%Z | None => false end);
      simpl; split; (reflexivity || discriminate).
  - intros Hn. rewrite (recalc_raised today inv Hn). exact Hs.
Qed.

Lemma C2_draft_recomputed_witness :
  status empty_draft = Draft /\ status (fst (recalc_totals 739010 empty_draft)) = Sent.
Proof.
  split; [reflexivity|].
  destruct (C2_draft_recomputed 739010 empty_draft eq_refl) as [H _].
  destruct (H ltac:(vm_compute; reflexivity)) as [H1 _].
  rewrite H1. vm_compute. reflexivity.
Defined.




(** C4, as stated: the tax amount is [subtotal * rate / 100] rounded
    half-up to two fraction digits. *)
Lemma C4_counterexample :
  ~ (forall today inv,
       let r := fst (recalc_totals today inv) in
       let rate := match tax_rate r with Some x => x | None => 0 end in
       tax_amount r == round2_half_up (subtotal_amount r * rate / 100)).
Proof.
  intro H. specialize (H 739010%Z half_cent_tax_invoice).
  vm_compute in H. discriminate H.
Qed.

(** C4 (amended): when [recalc_totals] completes, the tax amount is
    computed in the [Decimal] context: [subtotal * rate] rounded to 28
    significant digits, divided by 100 (rounded again), then quantized to
    cents half-to-even: a whole number [n] of cents, of at most 28 digits,
    at distance below half a cent from the quotient, or at exactly half a
    cent with [n] even.  (With the rate 0.50000000000000000000000000001
    on 1.00 the product rounds to 0.5 and the tax is 0.00, see
    [long_rate_tax].) *)
Theorem C4_tax_half_even (today : Z) (inv : Invoice) :
  let r := recalc_totals today inv in
  let rate := match tax_rate (fst r) with Some x => x | None => 0 end in
  snd r = None ->
  exists prod x n,
    dec_mul (subtotal_amount (fst r)) rate = DOk prod
    /\ dec_div prod 100 = DOk x
    /\ tax_amount (fst r) = Qmake n 100 /\ (Z.abs n < 10 ^ 28)%Z
    /\ (Qabs (x * 100 - inject_Z n) < 1 # 2 \/
        (Qabs (x * 100 - inject_Z n) == 1 # 2 /\ Z.even n = true)).
Proof.
  intros r rate Hn. subst r rate.
  destruct (recalc_ok today inv Hn) as (s & t & tot & b & _ & Et & _ & _ & E).
  rewrite E. unfold set_totals. cbn [subtotal_amount tax_amount tax_rate].
  destruct (dec_mul s _) as [p|e] eqn:Ep; [|discriminate Et]. cbn [dbind] in Et.
  destruct (dec_div p 100) as [x|e] eqn:Ex; [|discriminate Et]. cbn [dbind] in Et.
  unfold quantize_cents in Et.
  destruct (10 ^ dec_prec <=? Z.abs (round_half_even (x * 100)))%Z eqn:Eb;
    [discriminate Et|].
  injection Et as <-.
  exists p, x, (round_half_even (x * 100)).
  split; [first [reflexivity | assumption]|]. split; [first [reflexivity | assumption]|].
  split; [reflexivity|].
  split; [apply Z.leb_gt in Eb; exact Eb|].
  apply round_half_even_spec.
Qed.

Lemma C4_tax_half_even_witness :
  snd (recalc_totals 739010 half_cent_tax_invoice) = None /\
  exists prod x n,
    dec_mul (subtotal_amount (fst (recalc_totals 739010 half_cent_tax_invoice))) 1 = DOk prod
    /\ dec_div prod 100 = DOk x
    /\ tax_amount (fst (recalc_totals 739010 half_cent_tax_invoice)) = Qmake n 100
    /\ (Z.abs n < 10 ^ 28)%Z
    /\ (Qabs (x * 100 - inject_Z n) < 1 # 2 \/
        (Qabs (x * 100 - inject_Z n) == 1 # 2 /\ Z.even n = true)).
Proof.
  assert (H : snd (recalc_totals 739010 half_cent_tax_invoice) = None)
    by (vm_compute; reflexivity).
  split; [exact H|].
  exact (C4_tax_half_even 739010 half_cent_tax_invoice H).
Defined.

(** C5, as stated: the balance due is the total minus the exact sum of the
    payments, negative when the payments exceed the total. *)
Lemma C5_counterexample :
  ~ (forall today inv,
       let r := fst (recalc_totals today inv) in
       let paid := fold_left Qplus (map amount (payments inv)) 0 in
       balance_due r == total_amount r - paid /\ (total_amount r < paid -> balance_due r < 0)).
Proof.
  intro H. destruct (H 739010%Z overpaid_invoice) as [_ H2].
  assert (T : total_amount (fst (recalc_totals 739010 overpaid_invoice))
              < fold_left Qplus (map amount (payments overpaid_invoice)) 0)
    by (vm_compute; reflexivity).
  specialize (H2 T). vm_compute in H2. discriminate H2.
Qed.

(** C5 (amended): when [recalc_totals] completes, the balance due is the
    total minus [paid], the payments summed left to right in the
    [Decimal] context, the subtraction rounded as well.  It is not
    clamped: when [paid] exceeds the total the balance is not positive
    (-50.00 for 150.00 paid on 100.00).  Being rounded, a payment that
    exceeds the total by less than the rounding leaves a zero balance
    ([C5_counterexample]). *)
Theorem C5_balance_due (today : Z) (inv : Invoice) :
  let r := recalc_totals today inv in
  snd r = None ->
  exists paid,
    dec_sum (map amount (payments inv)) = DOk paid
    /\ dec_sub (total_amount (fst r)) paid = DOk (balance_due (fst r))
    /\ (total_amount (fst r) < paid -> balance_due (fst r) <= 0).
Proof.
  intros r Hn. subst r.
  destruct (recalc_ok today inv Hn) as (s & t & tot & b & _ & _ & _ & Eb & E).
  rewrite E. unfold set_totals. cbn [total_amount balance_due].
  destruct (dec_sum (map amount (payments inv))) as [paid|e]; [|discriminate Eb].
  cbn [dbind] in Eb. exists paid. split; [reflexivity|]. split; [exact Eb|].
  intros Hlt. apply (ctx_round_nonpos (tot - paid)); [lra | exact Eb].
Qed.

Lemma C5_balance_due_witness :
  let inv := new_invoice Sent 739000 None None
               [mkItem 1 None "Widget" 1 100 100] [make_payment 1 150 739001] in
  snd (recalc_totals 739010 inv) = None /\
  balance_due (fst (recalc_totals 739010 inv)) == -50 /\
  exists paid,
    dec_sum (map amount (payments inv)) = DOk paid
    /\ dec_sub (total_amount (fst (recalc_totals 739010 inv))) paid
       = DOk (balance_due (fst (recalc_totals 739010 inv)))
    /\ (total_amount (fst (recalc_totals 739010 inv)) < paid
        -> balance_due (fst (recalc_totals 739010 inv)) <= 0).
Proof.
  intros inv.
  assert (H : snd (recalc_totals 739010 inv) = None) by (vm_compute; reflexivity).
  split; [exact H|]. split; [vm_compute; reflexivity|].
  exact (C5_balance_due 739010 inv H).
Defined.

(** C6: when [recalc_totals] completes, an invoice whose recomputed total
    is positive and whose recomputed balance is not is [Paid], whatever
    its status. *)
Theorem C6_paid_detection (today : Z) (inv : Invoice) :
  let r := recalc_totals today inv in
  snd r = None -> 0 < total_amount (fst r) -> balance_due (fst r) <= 0 ->
  status (fst r) = Paid.
Proof.
  intros r Hn. subst r.
  destruct (recalc_ok today inv Hn) as (s & t & tot & b & _ & _ & _ & _ & E).
  rewrite E. unfold set_totals. cbn [total_amount balance_due status].
  intros Ht Hb. unfold next_status, dec_le, dec_lt.
  assert (E1 : Qle_bool b 0 = true) by (apply Qle_bool_iff; exact Hb).
  assert (E2 : Qle_bool tot 0 = false).
  { apply not_true_iff_false. intro H. apply Qle_bool_iff in H. lra. }
  rewrite E1, E2. reflexivity.
Qed.

Lemma C6_paid_detection_witness :
  status (fst (recalc_totals 739010 (scenario_B Sent))) = Paid.
Proof.
  apply (C6_paid_detection 739010 (scenario_B Sent));
    [vm_compute; reflexivity | vm_compute; reflexivity | vm_compute; intro H; discriminate H].
Defined.

(** C7: the tax rate is the settings default without a customer, with
    [use_default_tax] set (whatever override is stored) or without an
    override; otherwise it is the customer's override. *)
Theorem C7_tax_rate_resolution (settings : Settings) :
  determine_tax_rate_for_customer None settings = default_tax_rate settings /\
  (forall c, use_default_tax c = true \/ customer_tax_rate c = None ->
     determine_tax_rate_for_customer (Some c) settings = default_tax_rate settings) /\
  (forall c r, use_default_tax c = false -> customer_tax_rate c = Some r ->
     determine_tax_rate_for_customer (Some c) settings = r).
Proof.
  split; [reflexivity|]. split.
  - intros c [H | H]; simpl; rewrite H; simpl; [reflexivity|].
    destruct (use_default_tax c); reflexivity.
  - intros c r Hd Hr. simpl. rewrite Hd, Hr. reflexivity.
Qed.

Lemma C7_tax_rate_resolution_witness :
  determine_tax_rate_for_customer (Some (mkCustomer (Some 5) true)) (mkSettings 20 0 false) = 20
  /\ determine_tax_rate_for_customer (Some (mkCustomer (Some 5) false)) (mkSettings 20 0 false) = 5.
Proof.
  destruct (C7_tax_rate_resolution (mkSettings 20 0 false)) as (_ & H1 & H2).
  split.
  - apply H1. left. reflexivity.
  - apply H2; reflexivity.
Defined.

(** C8, as stated: without an explicit due date and with payment terms
    not greater than 0 the due date is null. *)
Lemma C8_counterexample :
  ~ (forall issue settings, (payment_terms_days settings <= 0)%Z ->
       resolve_due_date issue None settings = Returned None).
Proof.
  intro H. specialize (H 739000%Z negative_terms ltac:(vm_compute; discriminate)).
  discriminate H.
Qed.

(** C8 (amended): an explicit due date is returned unchanged; otherwise,
    with global terms enabled and a nonzero number of days (negative
    included), the due date is [issue + days] (an [OverflowError] when that
    falls outside the date range); otherwise it is null. *)
Theorem C8_due_date_policy (issue : Z) (settings : Settings) :
  (forall d, resolve_due_date issue (Some d) settings = Returned (Some d)) /\
  (use_global_payment_terms settings = true -> payment_terms_days settings <> 0%Z ->
   (date_min <= issue + payment_terms_days settings <= date_max)%Z ->
   resolve_due_date issue None settings
   = Returned (Some (issue + payment_terms_days settings)%Z)) /\
  (use_global_payment_terms settings = true -> payment_terms_days settings <> 0%Z ->
   ~ (date_min <= issue + payment_terms_days settings <= date_max)%Z ->
   resolve_due_date issue None settings = RaisedOverflowError) /\
  (use_global_payment_terms settings = false \/ payment_terms_days settings = 0%Z ->
   resolve_due_date issue None settings = Returned None).
Proof.
  unfold resolve_due_date, date_add_days, int_truthy.
  split; [reflexivity|]. split; [|split].
  - intros Hg Hd Hr. rewrite Hg. apply Z.eqb_neq in Hd. rewrite Hd. simpl.
    destruct Hr as [H1 H2]. apply Z.leb_le in H1, H2. rewrite H1, H2. reflexivity.
  - intros Hg Hd Hr. rewrite Hg. apply Z.eqb_neq in Hd. rewrite Hd. simpl.
    destruct ((date_min <=? issue + payment_terms_days settings)%Z) eqn:H1;
    destruct ((issue + payment_terms_days settings <=? date_max)%Z) eqn:H2;
    simpl; try reflexivity.
    apply Z.leb_le in H1, H2. exfalso. apply Hr. split; assumption.
  - intros [H | H]; rewrite H; [reflexivity|].
    simpl. rewrite andb_false_r. reflexivity.
Qed.

Lemma C8_due_date_policy_witness :
  resolve_due_date 739000 None negative_terms = Returned (Some 738995%Z).
Proof.
  destruct (C8_due_date_policy 739000 negative_terms) as (_ & H & _).
  apply H; [reflexivity | discriminate | vm_compute; split; discriminate].
Defined.

(** C9: recalculating twice in a row gives the same invoice, and the same
    outcome, as recalculating once (all derived fields and the status). *)
Theorem C9_recalc_idempotent (today : Z) (inv : Invoice) :
  recalc_totals today (fst (recalc_totals today inv)) = recalc_totals today inv.
Proof.
  unfold recalc_totals at 2 3. cbv zeta.
  destruct (dec_sum (map line_total (items inv))) as [s|e] eqn:E1;
  [destruct (dbind (dec_mul s _) _) as [t|e] eqn:E2;
   [destruct (dec_add s t) as [tot|e] eqn:E3;
    [destruct (dbind (dec_sum (map amount (payments inv))) _) as [b|e] eqn:E4|]|]|];
  cbn [fst]; unfold recalc_totals; cbv zeta; unfold set_totals;
  cbn [items payments tax_rate status due_date tax_amount total_amount balance_due
       subtotal_amount id customer_id invoice_number issue_date notes created_at updated_at];
  rewrite ?E1, ?E2, ?E3, ?E4; cbn [dbind]; rewrite ?next_status_idem; reflexivity.
Qed.

(** C10: [recalc_totals] writes only the subtotal, tax amount, total,
    balance due and status; items (with their line totals), payments,
    customer, number, dates, notes and tax rate are left as they were. *)
Theorem C10_recalc_frame (today : Z) (inv : Invoice) :
  let r := fst (recalc_totals today inv) in
  items r = items inv /\ payments r = payments inv /\
  id r = id inv /\ customer_id r = customer_id inv /\
  invoice_number r = invoice_number inv /\ issue_date r = issue_date inv /\
  due_date r = due_date inv /\ notes r = notes inv /\ tax_rate r = tax_rate inv /\
  created_at r = created_at inv /\ updated_at r = updated_at inv.
Proof. exact (recalc_frame today inv). Qed.

(** ** Further properties of the code *)

(** *** String lemmas *)

Lemma str_append_assoc (a b c : string) : ((a ++ b) ++ c)%string = (a ++ (b ++ c))%string.
Proof. induction a as [|x a IH]; simpl; [reflexivity | now rewrite IH]. Qed.

Lemma str_append_nil (a : string) : (a ++ EmptyString)%string = a.
Proof. induction a as [|x a IH]; simpl; [reflexivity | now rewrite IH]. Qed.

Lemma str_rev_rev (s acc t : string) :
  str_rev (str_rev s acc) t = str_rev acc (s ++ t).
Proof.
  revert acc t. induction s as [|c s IH]; intros acc t; simpl; [reflexivity|].
  rewrite IH. reflexivity.
Qed.

Lemma str_forallb_app p a b :
  str_forallb p (a ++ b) = str_forallb p a && str_forallb p b.
Proof. induction a as [|c a IH]; simpl; [reflexivity|]. rewrite IH, andb_assoc. reflexivity. Qed.

Lemma str_forallb_rev p s acc :
  str_forallb p (str_rev s acc) = str_forallb p s && str_forallb p acc.
Proof.
  revert acc. induction s as [|c s IH]; intro acc; simpl; [reflexivity|].
  rewrite IH. simpl. destruct (p c), (str_forallb p s), (str_forallb p acc); reflexivity.
Qed.

Lemma str_forallb_lstrip p s : str_forallb p s = true -> str_forallb p (py_lstrip s) = true.
Proof.
  induction s as [|c s IH]; simpl; [reflexivity|].
  intro H. apply andb_prop in H as [H1 H2].
  destruct (py_isspace c); [auto | simpl; rewrite H1, H2; reflexivity].
Qed.

Lemma str_forallb_strip p s : str_forallb p s = true -> str_forallb p (py_strip s) = true.
Proof.
  intro H. unfold py_strip. rewrite str_forallb_rev. simpl. rewrite andb_true_r.
  apply str_forallb_lstrip. rewrite str_forallb_rev. simpl. rewrite andb_true_r.
  apply str_forallb_lstrip. exact H.
Qed.

(** A digit is no whitespace, so [strip] keeps a string of digits. *)
Lemma lstrip_digits s : str_forallb is_digit s = true -> py_lstrip s = s.
Proof.
  destruct s as [|c s]; simpl; [reflexivity|].
  intro H. apply andb_prop in H as [H _].
  destruct (py_isspace c) eqn:E; [|reflexivity].
  exfalso. unfold py_isspace, is_digit in *.
  set (n := Ascii.nat_of_ascii c) in *.
  apply andb_prop in H as [H1 H2]. apply Nat.leb_le in H1, H2.
  repeat (apply orb_prop in E as [E|E]);
    try (apply andb_prop in E as [E1 E2]; apply Nat.leb_le in E1, E2; lia);
    apply Nat.eqb_eq in E; lia.
Qed.

Lemma strip_digits s : str_forallb is_digit s = true -> py_strip s = s.
Proof.
  intro H. unfold py_strip. rewrite (lstrip_digits s H).
  rewrite lstrip_digits.
  - rewrite str_rev_rev. simpl. apply str_append_nil.
  - rewrite str_forallb_rev. rewrite H. reflexivity.
Qed.

(** *** [int()] reads back what [f"{n:04d}"] writes *)

Lemma digit_char_spec (d : Z) : (0 <= d < 10)%Z ->
  is_digit (digit_char d) = true /\ digit_value (digit_char d) = d.
Proof.
  intro H.
  assert (d = 0 \/ d = 1 \/ d = 2 \/ d = 3 \/ d = 4 \/ d = 5 \/ d = 6 \/ d = 7
          \/ d = 8 \/ d = 9)%Z as Hd by lia.
  repeat destruct Hd as [Hd|Hd]; subst d; split; reflexivity.
Qed.

Lemma dec_aux_digits (fuel : nat) (n : Z) (acc : string) :
  (0 <= n)%Z -> str_forallb is_digit acc = true ->
  str_forallb is_digit (dec_aux fuel n acc) = true.
Proof.
  revert n acc. induction fuel as [|f IH]; intros n acc Hn Ha; cbn [dec_aux]; [exact Ha|].
  assert (Hm : (0 <= n mod 10 < 10)%Z) by (apply Z.mod_pos_bound; lia).
  destruct (digit_char_spec _ Hm) as [Hd _].
  destruct (n <? 10)%Z; cbn [str_forallb].
  - rewrite Hd. exact Ha.
  - apply IH; [apply Z.div_pos; lia | cbn [str_forallb]; rewrite Hd; exact Ha].
Qed.

Lemma dec_aux_value (fuel : nat) (n : Z) :
  (0 <= n)%Z -> (n < 2 ^ Z.of_nat fuel)%Z ->
  exists k : Z, (0 <= k)%Z /\ forall acc a,
    int_digits (dec_aux fuel n acc) a false = int_digits acc (a * 10 ^ k + n)%Z false.
Proof.
  revert n. induction fuel as [|f IH]; intros n H0 H1.
  - simpl in H1. exists 0%Z. split; [lia|]. intros acc a. cbn [dec_aux].
    replace n with 0%Z by lia. rewrite Z.mul_1_r, Z.add_0_r. reflexivity.
  - assert (Hm : (0 <= n mod 10 < 10)%Z) by (apply Z.mod_pos_bound; lia).
    destruct (digit_char_spec _ Hm) as [Hd Hv].
    pose proof (Z.div_mod n 10 ltac:(lia)) as Hdm.
    cbn [dec_aux]. destruct (n <? 10)%Z eqn:E.
    + apply Z.ltb_lt in E. exists 1%Z. split; [lia|]. intros acc a. cbn [int_digits].
      rewrite Hd, Hv. rewrite Z.mod_small by lia. try (f_equal; lia).
    + apply Z.ltb_ge in E.
      assert (Hq : (0 <= n / 10)%Z) by (apply Z.div_pos; lia).
      assert (Hq2 : (n / 10 < 2 ^ Z.of_nat f)%Z).
      { rewrite Nat2Z.inj_succ, Z.pow_succ_r in H1 by lia. lia. }
      destruct (IH (n / 10)%Z Hq Hq2) as [k [Hk HIH]].
      exists (k + 1)%Z. split; [lia|]. intros acc a.
      rewrite HIH. cbn [int_digits]. rewrite Hd, Hv. f_equal.
      rewrite Z.pow_add_r by lia. lia.
Qed.

Lemma int_digits_zeros (m : nat) (s : string) :
  int_digits (zeros m ++ s) 0 false = int_digits s 0 false.
Proof. induction m as [|m IH]; simpl; [reflexivity | exact IH]. Qed.

Lemma z_to_dec_value (n : Z) : (0 <= n)%Z ->
  int_digits (z_to_dec n) 0 false = Some n.
Proof.
  intro H. unfold z_to_dec.
  destruct (dec_aux_value (S (Z.to_nat (Z.log2 n))) n H) as [k [_ Hk]].
  - rewrite Nat2Z.inj_succ, Z2Nat.id by (apply Z.log2_nonneg).
    destruct (Z.eq_dec n 0) as [->|Hn]; [simpl; lia|].
    apply Z.log2_spec; lia.
  - rewrite Hk. simpl. reflexivity.
Qed.


Lemma dec_aux_nonempty (fuel : nat) (n : Z) (acc : string) :
  acc <> EmptyString -> dec_aux fuel n acc <> EmptyString.
Proof.
  revert n acc. induction fuel as [|f IH]; intros n acc H; cbn [dec_aux]; [exact H|].
  destruct (n <? 10)%Z; [discriminate | apply IH; discriminate].
Qed.

Lemma z_to_dec_nonempty (n : Z) : z_to_dec n <> EmptyString.
Proof.
  unfold z_to_dec. cbn [dec_aux].
  destruct (n <? 10)%Z; [discriminate | apply dec_aux_nonempty; discriminate].
Qed.

Lemma zeros_digits (m : nat) : str_forallb is_digit (zeros m) = true.
Proof. induction m as [|m IH]; [reflexivity | exact IH]. Qed.

Lemma fmt_04d_digits (n : Z) : (0 <= n)%Z -> str_forallb is_digit (fmt_0wd 4 n) = true.
Proof.
  intro H. unfold fmt_0wd. replace (n <? 0)%Z with false by (symmetry; apply Z.ltb_ge; lia).
  rewrite str_forallb_app, zeros_digits. apply dec_aux_digits; [exact H | reflexivity].
Qed.

Lemma py_int_digits (s : string) :
  str_forallb is_digit s = true -> s <> EmptyString -> py_int s = int_digits s 0 false.
Proof.
  intros H Hne. unfold py_int. rewrite (strip_digits s H).
  destruct s as [|c rest]; [congruence|].
  cbn [str_forallb] in H. apply andb_prop in H as [Hc _].
  destruct (Ascii.eqb c "+"%char) eqn:E1.
  { apply Ascii.eqb_eq in E1. subst c. discriminate Hc. }
  destruct (Ascii.eqb c "-"%char) eqn:E2.
  { apply Ascii.eqb_eq in E2. subst c. discriminate Hc. }
  unfold int_body. rewrite Hc.
  destruct (int_digits (String c rest) 0 false); [f_equal; lia | reflexivity].
Qed.

(** [int(f"{n:04d}")] is [n] for every [n >= 0]. *)
Lemma py_int_fmt_04d (n : Z) : (0 <= n)%Z -> py_int (fmt_0wd 4 n) = Some n.
Proof.
  intro H. rewrite py_int_digits.
  - unfold fmt_0wd. replace (n <? 0)%Z with false by (symmetry; apply Z.ltb_ge; lia).
    rewrite int_digits_zeros. apply z_to_dec_value. exact H.
  - apply fmt_04d_digits. exact H.
  - unfold fmt_0wd. replace (n <? 0)%Z with false by (symmetry; apply Z.ltb_ge; lia).
    destruct (zeros _); simpl; [apply z_to_dec_nonempty | discriminate].
Qed.

(** *** [split] lemmas *)

Lemma str_forallb_mono (p q : Ascii.ascii -> bool) (s : string) :
  (forall c, p c = true -> q c = true) -> str_forallb p s = true -> str_forallb q s = true.
Proof.
  intro Hpq. induction s as [|c s IH]; simpl; [reflexivity|].
  intro H. apply andb_prop in H as [H1 H2]. rewrite (Hpq c H1), (IH H2). reflexivity.
Qed.

Lemma digit_no_dash (c : Ascii.ascii) : is_digit c = true -> no_char "-"%char c = true.
Proof.
  intro H. unfold no_char. destruct (Ascii.eqb c "-"%char) eqn:E; [|reflexivity].
  apply Ascii.eqb_eq in E. subst c. discriminate H.
Qed.

Lemma py_split_no_sep (c : Ascii.ascii) (s : string) :
  str_forallb (no_char c) s = true -> py_split c s = [s].
Proof.
  induction s as [|x s IH]; [reflexivity|].
  cbn [str_forallb]. intro H. apply andb_prop in H as [H1 H2].
  unfold no_char in H1. apply negb_true_iff in H1.
  cbn [py_split]. rewrite H1, (IH H2). reflexivity.
Qed.

Lemma py_split_app_sep (c : Ascii.ascii) (s1 s2 : string) :
  exists h, h <> [] /\ py_split c (s1 ++ String c s2) = h ++ py_split c s2.
Proof.
  induction s1 as [|x s1 IH]; simpl.
  - exists [EmptyString]. rewrite Ascii.eqb_refl. split; [discriminate | reflexivity].
  - destruct IH as [h [Hh Heq]]. rewrite Heq.
    destruct (Ascii.eqb x c).
    + exists (EmptyString :: h). split; [discriminate | reflexivity].
    + destruct h as [|p ps]; [congruence|].
      exists (String x p :: ps). split; [discriminate | reflexivity].
Qed.

Lemma py_split_parts (c : Ascii.ascii) (s : string) :
  Forall (fun p => str_forallb (no_char c) p = true) (py_split c s).
Proof.
  induction s as [|x s IH]; simpl; [repeat constructor|].
  destruct (Ascii.eqb x c) eqn:E; [constructor; [reflexivity | exact IH]|].
  destruct (py_split c s) as [|p ps].
  { constructor; [simpl; unfold no_char; rewrite E; reflexivity | constructor]. }
  inversion IH; subst. constructor; [|assumption].
  simpl. unfold no_char. rewrite E. assumption.
Qed.

Lemma last_Forall {A} (P : A -> Prop) (l : list A) (d : A) :
  Forall P l -> P d -> P (last l d).
Proof.
  induction l as [|a l IH]; intros H Hd; [exact Hd|].
  inversion H; subst. destruct l; [assumption | apply IH; assumption].
Qed.

Lemma int_digits_nonneg (s : string) (acc : Z) (b : bool) (z : Z) :
  (0 <= acc)%Z -> int_digits s acc b = Some z -> (0 <= z)%Z.
Proof.
  revert acc b. induction s as [|c s IH]; intros acc b Ha H; cbn [int_digits] in H.
  - destruct b; [discriminate | injection H; lia].
  - destruct (is_digit c).
    + eapply IH; [|exact H]. unfold digit_value; lia.
    + destruct (Ascii.eqb c "_"%char && negb b); [apply (IH _ _ Ha H) | discriminate].
Qed.

(** [int()] of a text without ['-'] is never negative. *)
Lemma py_int_no_dash_nonneg (s : string) (k : Z) :
  str_forallb (no_char "-"%char) s = true -> py_int s = Some k -> (0 <= k)%Z.
Proof.
  intros Hs H. unfold py_int in H.
  pose proof (str_forallb_strip _ _ Hs) as Hs'.
  destruct (py_strip s) as [|c rest]; [discriminate|].
  cbn [str_forallb] in Hs'. apply andb_prop in Hs' as [Hc _].
  assert (Hbody : forall u sign, (sign = 1)%Z -> int_body u sign = Some k -> (0 <= k)%Z).
  { intros u sign -> Hb. unfold int_body in Hb. destruct u as [|c' u]; [discriminate|].
    destruct (is_digit c'); [|discriminate].
    destruct (int_digits (String c' u) 0 false) eqn:E; [|discriminate].
    rewrite Z.mul_1_l in Hb. injection Hb as <-. exact (int_digits_nonneg _ 0%Z false _ (Z.le_refl 0) E). }
  destruct (Ascii.eqb c "+"%char); [exact (Hbody _ _ eq_refl H)|].
  unfold no_char in Hc. destruct (Ascii.eqb c "-"%char); [discriminate|].
  exact (Hbody _ _ eq_refl H).
Qed.

(** *** Invoice numbering *)

Section NumberingFacts.
Variable like_prefix : string -> string -> bool.
Hypothesis like_prefix_app : forall p s, like_prefix p (p ++ s)%string = true.

Lemma last_match_snoc (p : string) (db : list Invoice) (i : Invoice) :
  last_match like_prefix p (db ++ [i])
  = if like_prefix p (invoice_number i) then Some i else last_match like_prefix p db.
Proof.
  induction db as [|j db IH]; simpl; [destruct (like_prefix p (invoice_number i)); reflexivity|].
  rewrite IH. destruct (like_prefix p (invoice_number i)); reflexivity.
Qed.

Lemma last_split_number (today_str f : string) :
  str_forallb (no_char "-"%char) f = true ->
  last (py_split "-"%char ("INV-" ++ today_str ++ "-" ++ f)%string) EmptyString = f.
Proof.
  intro Hf.
  replace ("INV-" ++ today_str ++ "-" ++ f)%string
    with (("INV-" ++ today_str) ++ String "-"%char f)%string
    by (rewrite str_append_assoc; reflexivity).
  destruct (py_split_app_sep "-"%char ("INV-" ++ today_str) f) as [h [_ ->]].
  rewrite (py_split_no_sep _ _ Hf). apply last_last.
Qed.

(** The sequence number a generated number carries is at least 1. *)
Lemma generate_seq_pos (today_str : string) (db : list Invoice) :
  exists n, (1 <= n)%Z /\
    generate_invoice_number like_prefix today_str db
    = ("INV-" ++ today_str ++ "-" ++ fmt_0wd 4 n)%string.
Proof.
  unfold generate_invoice_number.
  destruct (last_match like_prefix _ db) as [inv|]; [|exists 1%Z; split; [lia | reflexivity]].
  destruct (py_int _) as [k|] eqn:E; [|exists 1%Z; split; [lia | reflexivity]].
  exists (k + 1)%Z. split; [|reflexivity].
  enough (0 <= k)%Z by lia.
  eapply py_int_no_dash_nonneg; [|exact E].
  apply last_Forall; [apply py_split_parts | reflexivity].
Qed.

(** Generating after an invoice that carries the previously generated
    number gives the next sequence number. *)
Lemma generate_successor (today_str : string) (db : list Invoice) (inv : Invoice) (n : Z) :
  (0 <= n)%Z ->
  invoice_number inv = ("INV-" ++ today_str ++ "-" ++ fmt_0wd 4 n)%string ->
  generate_invoice_number like_prefix today_str (db ++ [inv])
  = ("INV-" ++ today_str ++ "-" ++ fmt_0wd 4 (n + 1))%string.
Proof.
  intros Hn Hnum. unfold generate_invoice_number.
  rewrite last_match_snoc, Hnum.
  replace ("INV-" ++ today_str ++ "-" ++ fmt_0wd 4 n)%string
    with (("INV-" ++ today_str ++ "-") ++ fmt_0wd 4 n)%string
    by (rewrite !str_append_assoc; reflexivity).
  rewrite like_prefix_app. cbv beta iota.
  rewrite Hnum.
  rewrite last_split_number.
  - rewrite py_int_fmt_04d by exact Hn. reflexivity.
  - apply (str_forallb_mono is_digit); [exact digit_no_dash | apply fmt_04d_digits; exact Hn].
Qed.

Lemma issue_numbers_from (today_str : string) (tmpls db : list Invoice) (m : nat) :
  (1 <= m)%nat ->
  generate_invoice_number like_prefix today_str db
  = ("INV-" ++ today_str ++ "-" ++ fmt_0wd 4 (Z.of_nat m))%string ->
  fst (issue_numbers like_prefix today_str tmpls db)
  = map (fun i => ("INV-" ++ today_str ++ "-" ++ fmt_0wd 4 (Z.of_nat i))%string)
        (seq m (List.length tmpls)).
Proof.
  revert db m. induction tmpls as [|t ts IH]; intros db m Hm Hgen; [reflexivity|].
  cbn [issue_numbers List.length seq map].
  destruct (issue_numbers like_prefix today_str ts
              (db ++ [set_invoice_number t (generate_invoice_number like_prefix today_str db)]))
    as [nums db'] eqn:E.
  simpl. rewrite Hgen. f_equal.
  replace nums with (fst (nums, db')) by reflexivity. rewrite <- E.
  apply IH; [lia|].
  rewrite (generate_successor _ _ _ (Z.of_nat m)); [| lia | simpl; exact Hgen].
  rewrite Nat2Z.inj_succ. reflexivity.
Qed.

Lemma last_match_none (p : string) (db : list Invoice) :
  (forall j, In j db -> like_prefix p (invoice_number j) = false) ->
  last_match like_prefix p db = None.
Proof.
  induction db as [|j db IH]; intro H; [reflexivity|]. simpl.
  rewrite IH by (intros j' Hj'; apply H; right; exact Hj').
  rewrite (H j (or_introl eq_refl)). reflexivity.
Qed.

Lemma last_match_latest (p : string) (db1 db2 : list Invoice) (inv : Invoice) :
  like_prefix p (invoice_number inv) = true ->
  (forall j, In j db2 -> like_prefix p (invoice_number j) = false) ->
  last_match like_prefix p (db1 ++ inv :: db2) = Some inv.
Proof.
  intros Hi H2. induction db1 as [|j db1 IH]; simpl.
  - rewrite (last_match_none p db2 H2), Hi. reflexivity.
  - rewrite IH. reflexivity.
Qed.

(** X1: invoices numbered one after the other on a day with no earlier
    matching invoice get [INV-<day>-0001], [INV-<day>-0002], ... *)
Theorem invoice_numbers_sequential (today_str : string) (tmpls db : list Invoice) :
  last_match like_prefix ("INV-" ++ today_str ++ "-")%string db = None ->
  fst (issue_numbers like_prefix today_str tmpls db)
  = map (fun i => ("INV-" ++ today_str ++ "-" ++ fmt_0wd 4 (Z.of_nat i))%string)
        (seq 1 (List.length tmpls)).
Proof.
  intro H. apply issue_numbers_from; [lia|].
  unfold generate_invoice_number. rewrite H. reflexivity.
Qed.

(** X2: the next number continues from the most recently created (highest
    id) invoice of the day, not from the largest number: its suffix after
    the last ['-'] plus one, or 1 ([0001]) when [int()] rejects that
    suffix. *)
Theorem invoice_number_from_latest (today_str : string) (db1 db2 : list Invoice)
    (inv : Invoice) :
  let p := ("INV-" ++ today_str ++ "-")%string in
  like_prefix p (invoice_number inv) = true ->
  (forall j, In j db2 -> like_prefix p (invoice_number j) = false) ->
  generate_invoice_number like_prefix today_str (db1 ++ inv :: db2)
  = ("INV-" ++ today_str ++ "-" ++
     fmt_0wd 4 (match py_int (last (py_split "-"%char (invoice_number inv)) EmptyString) with
                | Some k => k + 1
                | None => 1
                end))%string.
Proof.
  intros p Hi H2. unfold generate_invoice_number. fold p.
  rewrite (last_match_latest p db1 db2 inv Hi H2). reflexivity.
Qed.
End NumberingFacts.

(** A case-sensitive [LIKE 'p%'] ([String.prefix]) satisfies the
    hypothesis of the numbering lemmas. *)
Lemma string_prefix_app (p s : string) : String.prefix p (p ++ s)%string = true.
Proof.
  induction p as [|c p IH]; simpl; [destruct s; reflexivity|].
  destruct (Ascii.ascii_dec c c) as [_|n]; [exact IH | congruence].
Qed.

(** X3: every generated number is [INV-<day>-<seq:04d>] with [seq >= 1],
    and [int()] of its part after the last ['-'] (what the next call
    reads) gives [seq] back. *)
Theorem generated_number_suffix (like_prefix : string -> string -> bool)
    (today_str : string) (db : list Invoice) :
  exists n, (1 <= n)%Z
    /\ generate_invoice_number like_prefix today_str db
       = ("INV-" ++ today_str ++ "-" ++ fmt_0wd 4 n)%string
    /\ py_int (last (py_split "-"%char (generate_invoice_number like_prefix today_str db))
                    EmptyString) = Some n.
Proof.
  destruct (generate_seq_pos like_prefix today_str db) as (n & Hn & E).
  exists n. split; [exact Hn|]. split; [exact E|].
  rewrite E, last_split_number.
  - apply py_int_fmt_04d. lia.
  - apply (str_forallb_mono is_digit); [exact digit_no_dash | apply fmt_04d_digits; lia].
Qed.

Lemma invoice_numbers_sequential_witness :
  fst (issue_numbers String.prefix "20250101"%string [empty_draft; empty_draft; empty_draft]
         [set_invoice_number empty_draft "INV-20241231-0009"%string])
  = ["INV-20250101-0001"%string; "INV-20250101-0002"%string; "INV-20250101-0003"%string]%string.
Proof.
  rewrite (invoice_numbers_sequential String.prefix string_prefix_app "20250101"%string
             [empty_draft; empty_draft; empty_draft]
             [set_invoice_number empty_draft "INV-20241231-0009"%string] eq_refl).
  reflexivity.
Defined.

Lemma invoice_number_from_latest_witness :
  generate_invoice_number String.prefix "20250101"%string
    ([set_invoice_number empty_draft "INV-20250101-0005"%string]
     ++ set_invoice_number empty_draft "INV-20250101-0002"%string :: [])
  = "INV-20250101-0003"%string /\
  generate_invoice_number String.prefix "20250101"%string
    ([set_invoice_number empty_draft "INV-20250101-0005"%string]
     ++ set_invoice_number empty_draft "INV-20250101-A7"%string :: [])
  = "INV-20250101-0001"%string.
Proof.
  split.
  - rewrite (invoice_number_from_latest String.prefix "20250101"%string
               [set_invoice_number empty_draft "INV-20250101-0005"%string] []
               (set_invoice_number empty_draft "INV-20250101-0002"%string)
               eq_refl (fun j H => match H with end)).
    reflexivity.
  - rewrite (invoice_number_from_latest String.prefix "20250101"%string
               [set_invoice_number empty_draft "INV-20250101-0005"%string] []
               (set_invoice_number empty_draft "INV-20250101-A7"%string)
               eq_refl (fun j H => match H with end)).
    reflexivity.
Defined.

(** *** Outbound webhooks *)

(** The event list [settings_view] writes is read back by
    [selected_webhook_events] as exactly the ticked events. *)
Lemma selected_ticked_roundtrip (a b c : bool) :
  selected_webhook_events (py_join ","%char (ticked_events a b c)) = ticked_events a b c.
Proof. destruct a, b, c; vm_compute; reflexivity. Qed.

(** X4: after the settings form is saved, an event is posted exactly when
    the enable box is ticked, the URL is not blank, and either no event box
    is ticked or the event's box is. *)
Theorem webhook_dispatch_after_settings_form
    (enabled_field url_field created updated recorded : option string) (event_type : string) :
  webhook_dispatches
    (webhook_config_from_form enabled_field url_field created updated recorded) event_type
  = form_flag enabled_field
    && str_truthy (py_strip (match url_field with Some u => u | None => EmptyString end))
    && (negb (form_flag created || form_flag updated || form_flag recorded)
        || str_mem event_type
             (ticked_events (form_flag created) (form_flag updated) (form_flag recorded))).
Proof.
  unfold webhook_dispatches, webhook_config_from_form. cbn [outbound_webhook_enabled
    outbound_webhook_url outbound_webhook_events].
  rewrite selected_ticked_roundtrip.
  set (u := py_strip _).
  destruct (str_truthy u) eqn:Hu; destruct (form_flag enabled_field); simpl;
    rewrite ?Hu; simpl; try reflexivity;
    destruct (form_flag created), (form_flag updated), (form_flag recorded); simpl;
    repeat (match goal with |- context [String.eqb ?a ?b] => destruct (String.eqb a b) end);
    reflexivity.
Qed.

(** *** API key authorisation *)


Lemma find_none {A} (f : A -> bool) (l : list A) :
  (forall x, In x l -> f x = false) -> find f l = None.
Proof.
  induction l as [|x l IH]; intros H; [reflexivity|]. simpl.
  rewrite (H x (or_introl eq_refl)). apply IH. intros y Hy. apply H. right. exact Hy.
Qed.

Lemma find_unique_hash (sha256_hex : string -> string) (keys : list ApiKey) (k : ApiKey)
    (raw : string) :
  In k keys -> NoDup (map key_hash keys) -> key_hash k = sha256_hex raw -> active k = true ->
  find_api_key sha256_hex keys raw = Some k.
Proof.
  unfold find_api_key. induction keys as [|r keys IH]; intros Hin Hnd Hh Ha; [destruct Hin|].
  simpl in Hnd. inversion Hnd as [|? ? Hnotin Hnd']; subst. simpl.
  destruct Hin as [<-|Hin].
  - rewrite Hh, String.eqb_refl, Ha. reflexivity.
  - destruct (String.eqb_spec (key_hash r) (sha256_hex raw)) as [Er|Er]; simpl.
    + exfalso. apply Hnotin. rewrite Er, <- Hh. apply in_map. exact Hin.
    + apply IH; assumption.
Qed.

(** X5: with neither a truthy [X-API-Key] header nor a truthy [api_key]
    argument, [require_api_key] aborts with 401 "Missing API key" and the
    table is untouched. *)
Theorem api_key_missing (sha256_hex : string -> string) (keys : list ApiKey)
    (header arg : option string) (write : bool) (now : Z) :
  opt_str_truthy header = false -> opt_str_truthy arg = false ->
  require_api_key sha256_hex keys header arg write now = (Abort401 "Missing API key", keys).
Proof.
  intros Hh Ha. unfold require_api_key, str_or. rewrite Hh.
  destruct arg as [a|]; [|reflexivity].
  unfold opt_str_truthy in Ha. rewrite Ha. reflexivity.
Qed.

(** X6: a truthy [X-API-Key] header is used and the [api_key] argument is
    ignored. *)
Theorem api_key_header_first (sha256_hex : string -> string) (keys : list ApiKey)
    (header arg : option string) (write : bool) (now : Z) :
  opt_str_truthy header = true ->
  require_api_key sha256_hex keys header arg write now
  = require_api_key sha256_hex keys header None write now.
Proof. intros H. unfold require_api_key, str_or. rewrite H. reflexivity. Qed.

(** X7: a non-empty key, taken from the [X-API-Key] header or else from
    the [api_key] argument, whose hash matches no active row aborts with
    401 "Invalid or inactive API key", whatever the permission asked for. *)
Theorem api_key_invalid (sha256_hex : string -> string) (keys : list ApiKey)
    (header arg : option string) (raw : string) (write : bool) (now : Z) :
  str_or header arg = Some raw ->
  str_truthy raw = true ->
  (forall k, In k keys -> key_hash k = sha256_hex raw -> active k = false) ->
  require_api_key sha256_hex keys header arg write now
  = (Abort401 "Invalid or inactive API key", keys).
Proof.
  intros Hs Hr Hk. unfold require_api_key. rewrite Hs. cbv beta iota.
  rewrite Hr. simpl negb.
  unfold find_api_key. rewrite find_none; [reflexivity|].
  intros k Hin. destruct (String.eqb_spec (key_hash k) (sha256_hex raw)) as [E|E]; simpl.
  - apply Hk; assumption.
  - reflexivity.
Qed.

(** X8: for a key, taken from the [X-API-Key] header or else from the
    [api_key] argument, that is non-empty, active and whose hash is unique
    in the table, the outcome depends only on [can_write]: 403 for a write
    without write permission, otherwise success with [last_used_at] set;
    [can_read] is never read. *)
Theorem api_key_permission (sha256_hex : string -> string) (keys : list ApiKey)
    (k : ApiKey) (header arg : option string) (raw : string) (write : bool) (now : Z) :
  str_or header arg = Some raw ->
  In k keys -> NoDup (map key_hash keys) -> key_hash k = sha256_hex raw ->
  active k = true -> str_truthy raw = true ->
  fst (require_api_key sha256_hex keys header arg write now)
  = if write && negb (can_write k)
    then Abort403 "API key does not have write permission"
    else AuthOk (touch_key now k).
Proof.
  intros Hs Hin Hnd Hh Ha Hr. unfold require_api_key. rewrite Hs. cbv beta iota.
  rewrite Hr. simpl negb. rewrite (find_unique_hash sha256_hex keys k raw Hin Hnd Hh Ha).
  destruct (write && negb (can_write k)); reflexivity.
Qed.

(** X9: authorisation never changes a key's id, hash, permissions or active
    flag, and an aborted request leaves the table as it was. *)
Theorem api_key_frame (sha256_hex : string -> string) (keys : list ApiKey)
    (header arg : option string) (write : bool) (now : Z) :
  let r := require_api_key sha256_hex keys header arg write now in
  map key_fields (snd r) = map key_fields keys
  /\ (forall d, fst r = Abort401 d \/ fst r = Abort403 d -> snd r = keys).
Proof.
  unfold require_api_key.
  destruct (str_or header arg) as [raw|]; [|split; reflexivity || (intros; reflexivity)].
  destruct (negb (str_truthy raw)); [split; reflexivity || (intros; reflexivity)|].
  destruct (find_api_key sha256_hex keys raw) as [k|];
    [|split; reflexivity || (intros; reflexivity)].
  destruct (write && negb (can_write k)); [split; reflexivity || (intros; reflexivity)|].
  simpl. split.
  - rewrite map_map. apply map_ext. intros r.
    destruct (String.eqb (key_id r) (key_id k)); reflexivity.
  - intros d [H|H]; discriminate H.
Qed.

Lemma api_key_missing_witness :
  opt_str_truthy (Some EmptyString) = false /\ opt_str_truthy None = false /\
  require_api_key (fun s => s) [mkApiKey "k1" "s3cret" true true true None]
    (Some EmptyString) None true 7%Z
  = (Abort401 "Missing API key", [mkApiKey "k1" "s3cret" true true true None]).
Proof.
  split; [reflexivity|]. split; [reflexivity|].
  apply api_key_missing; reflexivity.
Defined.

Lemma api_key_header_first_witness :
  opt_str_truthy (Some "s3cret"%string) = true /\
  require_api_key (fun s => s) [mkApiKey "k1" "s3cret" true false true None]
    (Some "s3cret"%string) (Some "other"%string) true 7%Z
  = require_api_key (fun s => s) [mkApiKey "k1" "s3cret" true false true None]
      (Some "s3cret"%string) None true 7%Z.
Proof. split; [reflexivity|]. apply api_key_header_first. reflexivity. Defined.

(** The key comes from the [api_key] argument. *)
Lemma api_key_invalid_witness :
  str_truthy "s3cret" = true /\
  require_api_key (fun s => s) [mkApiKey "k1" "s3cret" true true false None]
    None (Some "s3cret"%string) false 7%Z
  = (Abort401 "Invalid or inactive API key", [mkApiKey "k1" "s3cret" true true false None]).
Proof.
  split; [reflexivity|].
  apply (api_key_invalid (fun s => s) _ None (Some "s3cret"%string) "s3cret");
    [reflexivity | reflexivity|].
  intros k [<-|[]] _. reflexivity.
Defined.

(** A key with [can_read = false], passed as the [api_key] argument after
    an empty header, still authorises a read request. *)
Lemma api_key_permission_witness :
  fst (require_api_key (fun s => s) [mkApiKey "k1" "s3cret" false false true None]
         (Some EmptyString) (Some "s3cret"%string) false 7%Z)
  = AuthOk (touch_key 7 (mkApiKey "k1" "s3cret" false false true None)).
Proof.
  apply (api_key_permission (fun s => s) [mkApiKey "k1" "s3cret" false false true None]
           (mkApiKey "k1" "s3cret" false false true None) (Some EmptyString)
           (Some "s3cret"%string) "s3cret" false 7%Z).
  - reflexivity.
  - left. reflexivity.
  - repeat constructor. intros [].
  - reflexivity.
  - reflexivity.
  - reflexivity.
Defined.

(** *** The status filter of [list_invoices] *)

(** X10: with no [status] argument, or an empty one, the list shows exactly
    the draft, sent and overdue invoices. *)
Theorem list_invoices_default_open (arg : option string) (st : invoice_status) :
  opt_str_truthy arg = false ->
  invoice_listed (status_filter_of arg) st
  = negb (status_eqb st Paid || status_eqb st Cancelled).
Proof.
  intros H. assert (E : status_filter_of arg = "open"%string).
  { destruct arg as [s|]; [|reflexivity]. unfold opt_str_truthy in H.
    unfold status_filter_of. rewrite H. reflexivity. }
  rewrite E. destruct st; reflexivity.
Qed.

Lemma list_invoices_default_open_witness :
  opt_str_truthy (Some EmptyString) = false /\
  invoice_listed (status_filter_of (Some EmptyString)) Overdue = true.
Proof.
  split; [reflexivity|]. rewrite (list_invoices_default_open (Some EmptyString) Overdue);
  reflexivity.
Defined.

(** X11: a filter value other than open, draft, sent, overdue and paid
    applies no filter at all; it is also the only way to list a cancelled
    invoice. *)
Theorem list_invoices_unknown_filter (f : string) :
  (~ In f ["open"; "draft"; "sent"; "overdue"; "paid"]%string
   -> forall st, invoice_listed f st = true)
  /\ (invoice_listed f Cancelled = true
      <-> ~ In f ["open"; "draft"; "sent"; "overdue"; "paid"]%string).
Proof.
  unfold invoice_listed.
  destruct (String.eqb_spec f "open") as [->|N1];
    [split; [intros H; exfalso; apply H; simpl; tauto|
             split; [discriminate|intros H; exfalso; apply H; simpl; tauto]]|].
  destruct (String.eqb_spec f "draft") as [->|N2];
    [split; [intros H; exfalso; apply H; simpl; tauto|
             split; [discriminate|intros H; exfalso; apply H; simpl; tauto]]|].
  destruct (String.eqb_spec f "sent") as [->|N3];
    [split; [intros H; exfalso; apply H; simpl; tauto|
             split; [discriminate|intros H; exfalso; apply H; simpl; tauto]]|].
  destruct (String.eqb_spec f "overdue") as [->|N4];
    [split; [intros H; exfalso; apply H; simpl; tauto|
             split; [discriminate|intros H; exfalso; apply H; simpl; tauto]]|].
  destruct (String.eqb_spec f "paid") as [->|N5];
    [split; [intros H; exfalso; apply H; simpl; tauto|
             split; [discriminate|intros H; exfalso; apply H; simpl; tauto]]|].
  split; [intros; reflexivity|].
  split; [|reflexivity]. intros _ H. simpl in H. intuition congruence.
Qed.

(** *** Recording a payment *)

(** X12: when recording a payment completes, the subtotal, tax and total
    are those [recalc_totals] writes without the payment; the payments
    sum is the earlier sum plus the amount (one more rounded addition),
    the balance is the total minus that sum, not clamped at zero, and the
    payment is appended. *)
Theorem record_payment_totals (today : Z) (inv : Invoice) (p : Payment) :
  let r0 := fst (recalc_totals today inv) in
  let r1 := record_payment today inv p in
  snd r1 = None ->
  subtotal_amount (fst r1) = subtotal_amount r0 /\ tax_amount (fst r1) = tax_amount r0
  /\ total_amount (fst r1) = total_amount r0
  /\ (exists paid0 paid1,
        dec_sum (map amount (payments inv)) = DOk paid0
        /\ dec_add paid0 (amount p) = DOk paid1
        /\ dec_sub (total_amount (fst r1)) paid1 = DOk (balance_due (fst r1)))
  /\ items (fst r1) = items inv /\ payments (fst r1) = payments inv ++ [p].
Proof.
  intros r0 r1 Hn. subst r0 r1. unfold record_payment in *.
  destruct (recalc_ok today _ Hn) as (s & t & tot & b & E1 & E2 & E3 & E4 & E).
  rewrite E. clear E Hn.
  unfold with_lines in E1, E2, E4. cbn [items payments tax_rate] in E1, E2, E4.
  rewrite map_app in E4. cbn [map] in E4. rewrite dec_sum_snoc in E4.
  unfold recalc_totals. cbv zeta. rewrite E1, E2, E3.
  unfold set_totals, with_lines.
  destruct (dec_sum (map amount (payments inv))) as [paid0|e]; [|discriminate E4].
  cbn [dbind] in E4 |- *.
  destruct (dec_add paid0 (amount p)) as [paid1|e] eqn:Ea; [|discriminate E4].
  cbn [dbind] in E4.
  destruct (dec_sub tot paid0);
    cbn [fst subtotal_amount tax_amount total_amount balance_due items payments];
    (split; [reflexivity|]); (split; [reflexivity|]); (split; [reflexivity|]);
    (split; [exists paid0, paid1; split; [reflexivity|]; split; [exact Ea | exact E4]|]);
    split; reflexivity.
Qed.

Lemma record_payment_totals_witness :
  snd (record_payment 739010 (scenario_A Sent) (make_payment 2 50 739001)) = None /\
  balance_due (fst (record_payment 739010 (scenario_A Sent) (make_payment 2 50 739001))) == 70 /\
  subtotal_amount (fst (record_payment 739010 (scenario_A Sent) (make_payment 2 50 739001)))
  = subtotal_amount (fst (recalc_totals 739010 (scenario_A Sent))) /\
  tax_amount (fst (record_payment 739010 (scenario_A Sent) (make_payment 2 50 739001)))
  = tax_amount (fst (recalc_totals 739010 (scenario_A Sent))).
Proof.
  assert (H : snd (record_payment 739010 (scenario_A Sent) (make_payment 2 50 739001)) = None)
    by (vm_compute; reflexivity).
  destruct (record_payment_totals 739010 (scenario_A Sent) (make_payment 2 50 739001) H)
    as (H1 & H2 & _).
  split; [exact H|]. split; [vm_compute; reflexivity|]. split; [exact H1 | exact H2].
Defined.

(** *** The item rows of the invoice form *)

(** X15: when the rows are built, every item the invoice form saves comes
    from one row [j] of the form: its description is that row's stripped,
    non-blank description, its quantity and price parse from that row, its
    product id is read from the product-id entry of the same index [j]
    (rows skipped before it do not shift it), and its line total is
    [quantity * unit_price] computed in the [Decimal] context. *)
Theorem form_item_rows_origin (parse_decimal : string -> option Q) (idx : nat)
    (descs qtys prices pids : list string) (its : list InvoiceItem) (it : InvoiceItem) :
  form_item_rows parse_decimal idx descs qtys prices pids = DOk its ->
  In it its ->
  exists j d q p,
    nth_error descs j = Some d /\ nth_error qtys j = Some q /\ nth_error prices j = Some p
    /\ item_id it = Z.of_nat (idx + j) /\ item_description it = py_strip d
    /\ str_truthy (py_strip d) = true
    /\ parse_decimal (or_zero q) = Some (quantity it)
    /\ parse_decimal (or_zero p) = Some (unit_price it)
    /\ item_product_id it = form_product_id pids (idx + j)
    /\ dec_mul (quantity it) (unit_price it) = DOk (line_total it).
Proof.
  revert idx qtys prices its.
  induction descs as [|d ds IH]; intros idx qtys prices its Hrows Hin.
  { cbn [form_item_rows] in Hrows. injection Hrows as <-. destruct Hin. }
  destruct qtys as [|q qs]; [cbn [form_item_rows] in Hrows; injection Hrows as <-; destruct Hin|].
  destruct prices as [|p ps];
    [cbn [form_item_rows] in Hrows; injection Hrows as <-; destruct Hin|].
  assert (Hrest : forall its',
    form_item_rows parse_decimal (S idx) ds qs ps pids = DOk its' -> In it its' ->
    exists j d0 q0 p0,
      nth_error (d :: ds) j = Some d0 /\ nth_error (q :: qs) j = Some q0
      /\ nth_error (p :: ps) j = Some p0
      /\ item_id it = Z.of_nat (idx + j) /\ item_description it = py_strip d0
      /\ str_truthy (py_strip d0) = true
      /\ parse_decimal (or_zero q0) = Some (quantity it)
      /\ parse_decimal (or_zero p0) = Some (unit_price it)
      /\ item_product_id it = form_product_id pids (idx + j)
      /\ dec_mul (quantity it) (unit_price it) = DOk (line_total it)).
  { intros its' H1 H2.
    destruct (IH (S idx) qs ps its' H1 H2) as (j & d0 & q0 & p0 & H3 & H4 & H5 & H6 & Hr).
    exists (S j), d0, q0, p0. cbn [nth_error]. rewrite <- Nat.add_succ_comm. tauto. }
  cbn [form_item_rows] in Hrows.
  destruct (str_truthy (py_strip d)) eqn:Hd; cbn [negb] in Hrows; [|exact (Hrest its Hrows Hin)].
  destruct (parse_decimal (or_zero q)) as [qty|] eqn:Hq; [|exact (Hrest its Hrows Hin)].
  destruct (parse_decimal (or_zero p)) as [price|] eqn:Hp; [|exact (Hrest its Hrows Hin)].
  unfold make_item in Hrows.
  destruct (dec_mul qty price) as [lt|e] eqn:Hm; [|discriminate Hrows]. cbn [dbind] in Hrows.
  destruct (form_item_rows parse_decimal (S idx) ds qs ps pids) as [rest|e] eqn:Hr;
    [|discriminate Hrows].
  cbn [dbind] in Hrows. injection Hrows as <-.
  destruct Hin as [<-|Hin]; [|exact (Hrest rest eq_refl Hin)].
  exists 0%nat, d, q, p. rewrite Nat.add_0_r.
  cbn [nth_error item_id item_description quantity unit_price item_product_id line_total].
  repeat split; assumption || reflexivity.
Qed.

Lemma form_item_rows_origin_witness :
  form_item_rows (fun s => option_map inject_Z (py_int s)) 0
    [" Widget "; "  "]%string ["2"; "5"]%string ["3"; "1"]%string [""]%string
  = DOk [mkItem 0 None "Widget" 2 3 6] /\
  exists j d q p,
    nth_error [" Widget "; "  "]%string j = Some d /\ nth_error ["2"; "5"]%string j = Some q
    /\ nth_error ["3"; "1"]%string j = Some p
    /\ item_id (mkItem 0 None "Widget" 2 3 6) = Z.of_nat (0 + j)
    /\ item_description (mkItem 0 None "Widget" 2 3 6) = py_strip d
    /\ str_truthy (py_strip d) = true
    /\ option_map inject_Z (py_int (or_zero q)) = Some (quantity (mkItem 0 None "Widget" 2 3 6))
    /\ option_map inject_Z (py_int (or_zero p)) = Some (unit_price (mkItem 0 None "Widget" 2 3 6))
    /\ item_product_id (mkItem 0 None "Widget" 2 3 6) = form_product_id [""]%string (0 + j)
    /\ dec_mul (quantity (mkItem 0 None "Widget" 2 3 6)) (unit_price (mkItem 0 None "Widget" 2 3 6))
       = DOk (line_total (mkItem 0 None "Widget" 2 3 6)).
Proof.
  assert (H : form_item_rows (fun s => option_map inject_Z (py_int s)) 0
    [" Widget "; "  "]%string ["2"; "5"]%string ["3"; "1"]%string [""]%string
    = DOk [mkItem 0 None "Widget" 2 3 6]) by (vm_compute; reflexivity).
  split; [exact H|].
  exact (form_item_rows_origin (fun s => option_map inject_Z (py_int s)) 0
           [" Widget "; "  "]%string ["2"; "5"]%string ["3"; "1"]%string [""]%string _ _ H
           (or_introl eq_refl)).
Defined.

(** X16: when the rows are built, the form saves at most one item per row
    of the shortest of the description, quantity and price lists. *)
Theorem form_item_rows_length (parse_decimal : string -> option Q) (idx : nat)
    (descs qtys prices pids : list string) (its : list InvoiceItem) :
  form_item_rows parse_decimal idx descs qtys prices pids = DOk its ->
  (List.length its
   <= Nat.min (List.length descs) (Nat.min (List.length qtys) (List.length prices)))%nat.
Proof.
  revert idx qtys prices its.
  induction descs as [|d ds IH]; intros idx qtys prices its Hrows.
  { cbn [form_item_rows] in Hrows. injection Hrows as <-. simpl. lia. }
  destruct qtys as [|q qs]; [cbn [form_item_rows] in Hrows; injection Hrows as <-; simpl; lia|].
  destruct prices as [|p ps];
    [cbn [form_item_rows] in Hrows; injection Hrows as <-; simpl; lia|].
  cbn [List.length].
  cbn [form_item_rows] in Hrows.
  destruct (str_truthy (py_strip d)); cbn [negb] in Hrows;
    [|specialize (IH (S idx) qs ps its Hrows); lia].
  destruct (parse_decimal (or_zero q)) as [qty|];
    [|specialize (IH (S idx) qs ps its Hrows); lia].
  destruct (parse_decimal (or_zero p)) as [price|];
    [|specialize (IH (S idx) qs ps its Hrows); lia].
  destruct (make_item (Z.of_nat idx) (form_product_id pids idx) (py_strip d) qty price)
    as [it|e]; [|discriminate Hrows].
  cbn [dbind] in Hrows.
  destruct (form_item_rows parse_decimal (S idx) ds qs ps pids) as [rest|e] eqn:Hr;
    [|discriminate Hrows].
  cbn [dbind] in Hrows. injection Hrows as <-.
  specialize (IH (S idx) qs ps rest Hr). cbn [List.length]. lia.
Qed.

Lemma form_item_rows_length_witness :
  form_item_rows (fun s => option_map inject_Z (py_int s)) 0
    [" Widget "; "  "]%string ["2"; "5"]%string ["3"; "1"]%string [""]%string
  = DOk [mkItem 0 None "Widget" 2 3 6] /\
  (List.length [mkItem 0 None "Widget" 2 3 6] <= Nat.min 2 (Nat.min 2 2))%nat.
Proof.
  assert (H : form_item_rows (fun s => option_map inject_Z (py_int s)) 0
    [" Widget "; "  "]%string ["2"; "5"]%string ["3"; "1"]%string [""]%string
    = DOk [mkItem 0 None "Widget" 2 3 6]) by (vm_compute; reflexivity).
  split; [exact H|].
  exact (form_item_rows_length (fun s => option_map inject_Z (py_int s)) 0
           [" Widget "; "  "]%string ["2"; "5"]%string ["3"; "1"]%string [""]%string _ H).
Defined.

(** *** The CSV import of invoices *)

Lemma str_mem_snoc (x : string) (l : list string) : str_mem x (l ++ [x]) = true.
Proof.
  unfold str_mem. apply existsb_exists. exists x.
  split; [apply in_or_app; right; left; reflexivity | apply String.eqb_refl].
Qed.

Lemma str_nodup_snoc_dup (x : string) (l : list string) : In x l -> str_nodup (l ++ [x]) = false.
Proof.
  induction l as [|y l IH]; intros H; [destruct H|]. cbn [app str_nodup].
  destruct H as [->|H].
  - rewrite str_mem_snoc. reflexivity.
  - rewrite (IH H). apply andb_false_r.
Qed.

(** [unique_numbers] rejects an invoice whose number is already stored. *)
Lemma unique_numbers_rejects (custs : list ImportCustomer) (invs : list Invoice) (inv : Invoice) :
  In (invoice_number inv) (map invoice_number invs) -> unique_numbers custs (invs ++ [inv]) = false.
Proof.
  intros H. unfold unique_numbers. rewrite map_app. cbn [map].
  apply str_nodup_snoc_dup. exact H.
Qed.

(** With no payment, a balance equal to the total: not [paid] unless it
    already was. *)
Lemma next_status_no_payment (today : Z) (due : option Z) (st : invoice_status) (t : Q) :
  next_status today due st t t =
  match st with
  | Paid => Paid
  | Cancelled => Cancelled
  | _ => match due with
         | Some d => if Z.ltb d today then Overdue else Sent
         | None => Sent
         end
  end.
Proof.
  unfold next_status, dec_le, dec_lt.
  replace (Qle_bool t 0 && negb (Qle_bool t 0)) with false
    by (destruct (Qle_bool t 0); reflexivity).
  destruct st, due as [d|]; simpl; try reflexivity; destruct (Z.ltb d today); reflexivity.
Qed.

Ltac import_branches :=
  repeat (match goal with
          | |- context [if ?b then _ else _] => destruct b eqn:?
          | |- context [match ?x with _ => _ end] => destruct x eqn:?
          end; cbv beta iota zeta).

Section ImportFacts.
Variable like_prefix : string -> string -> bool.
Variable parse_date : string -> option Z.
Variable parse_decimal : string -> option Q.
Variable same_email : string -> string -> bool.
Variable flush_ok : list ImportCustomer -> list Invoice -> bool.
Variable today : Z.
Variable today_str : string.
Variable now : Z.
Variable settings : Settings.

Local Abbreviation step :=
  (import_row like_prefix parse_date parse_decimal same_email flush_ok today today_str now
     settings).

Lemma import_row_counts (st : ImportState) (row : ImportRow) :
  (imp_count (step st row) + imp_errors (step st row) = S (imp_count st + imp_errors st))%nat.
Proof.
  unfold import_row. cbv zeta.
  destruct (imp_failed st); [cbn [import_error imp_count imp_errors]; lia|].
  import_branches; cbn [import_error imp_count imp_errors]; lia.
Qed.

Lemma import_fold_counts (rows : list ImportRow) (st : ImportState) :
  (imp_count (fold_left step rows st) + imp_errors (fold_left step rows st)
   = List.length rows + imp_count st + imp_errors st)%nat.
Proof.
  revert st. induction rows as [|r rows IH]; intros st; cbn [fold_left List.length];
    [reflexivity|].
  rewrite IH. pose proof (import_row_counts st r). lia.
Qed.

Lemma import_row_failed (st : ImportState) (row : ImportRow) :
  imp_failed st = true -> imp_failed (step st row) = true.
Proof. intros H. unfold step, import_row. rewrite H. exact H. Qed.

Lemma import_fold_failed (rows : list ImportRow) (st : ImportState) :
  imp_failed st = true -> imp_failed (fold_left step rows st) = true.
Proof.
  revert st. induction rows as [|r rows IH]; intros st H; cbn [fold_left]; [exact H|].
  apply IH, import_row_failed, H.
Qed.

(** A row that reaches the insert of an invoice whose number is taken
    sets the session's failed flag. *)
Hypothesis flush_rejects_taken_number : forall custs invs inv,
  In (invoice_number inv) (map invoice_number invs) -> flush_ok custs (invs ++ [inv]) = false.

Lemma import_row_duplicate (st : ImportState) (row : ImportRow)
    (r : ImportCustomer + ImportCustomer) (issue due : Z) :
  imp_failed st = false ->
  import_customer same_email (imp_customers st) row = Some r ->
  opt_date parse_date (row_issue_date row) = Some issue ->
  opt_date parse_date (row_due_date row) = Some due ->
  In (import_number like_prefix today_str (imp_invoices st) row)
     (map invoice_number (imp_invoices st)) ->
  imp_failed (step st row) = true.
Proof.
  intros Hf Hc Hi Hd Hin. unfold import_row. cbv zeta. rewrite Hf, Hc. cbv beta iota.
  destruct (negb (customer_flush_ok flush_ok (imp_customers st) (imp_invoices st) r));
    [reflexivity|].
  rewrite Hi, Hd. cbv beta iota.
  rewrite (flush_rejects_taken_number (customers_after (imp_customers st) r) (imp_invoices st)
             (import_invoice like_prefix today_str now settings (imp_invoices st) row
                (resolved_customer r) issue due) Hin).
  reflexivity.
Qed.

Lemma import_row_counted (st : ImportState) (row : ImportRow) :
  imp_count (step st row) = S (imp_count st) ->
  exists inv0 its,
    imp_invoices (step st row)
    = imp_invoices st ++ [fst (recalc_totals today (with_lines inv0 its []))]
    /\ snd (recalc_totals today (with_lines inv0 its [])) = None
    /\ List.length its = 1%nat
    /\ status inv0 = import_status (row_status row).
Proof.
  unfold import_row. cbv zeta. intros H.
  destruct (imp_failed st); [cbn [import_error imp_count] in H; lia|].
  revert H. import_branches; cbn [import_error imp_count imp_invoices]; intros H; try lia.
  eexists; eexists. split; [reflexivity|]. split; [eassumption|]. split; reflexivity.
Qed.

(** X17: the import counts every row exactly once, as imported or as
    skipped: when the import is committed, imported + skipped = rows. *)
Theorem import_counts (custs : list ImportCustomer) (invs : list Invoice)
    (rows : list ImportRow) (st : ImportState) :
  import_invoices like_prefix parse_date parse_decimal same_email flush_ok today today_str
    now settings custs invs rows = Some st ->
  (imp_count st + imp_errors st = List.length rows)%nat.
Proof.
  unfold import_invoices. intros H.
  destruct (imp_failed _ || _); [discriminate H|]. injection H as <-.
  pose proof (import_fold_counts rows (mkImportState custs invs 0 0 false)) as H.
  cbn [imp_count imp_errors] in H. lia.
Qed.

(** X18: a row that reaches the insert of its invoice (its customer is
    found or created, both dates parse) with an invoice number, given or
    generated, equal to one already in the session (an existing invoice or
    one inserted by an earlier row) makes the import fail: the final
    commit raises and nothing of the file is written.  The database is
    only assumed to reject a number equal to a stored one. *)
Theorem import_duplicate_number_aborts (custs : list ImportCustomer) (invs : list Invoice)
    (pre post : list ImportRow) (row : ImportRow) (r : ImportCustomer + ImportCustomer)
    (issue due : Z) :
  let st := fold_left step pre (mkImportState custs invs 0 0 false) in
  import_customer same_email (imp_customers st) row = Some r ->
  opt_date parse_date (row_issue_date row) = Some issue ->
  opt_date parse_date (row_due_date row) = Some due ->
  In (import_number like_prefix today_str (imp_invoices st) row)
     (map invoice_number (imp_invoices st)) ->
  import_invoices like_prefix parse_date parse_decimal same_email flush_ok today today_str
    now settings custs invs (pre ++ row :: post) = None.
Proof.
  intros st Hc Hi Hd Hin. unfold import_invoices.
  rewrite fold_left_app. cbn [fold_left]. fold st.
  rewrite import_fold_failed; [reflexivity|].
  destruct (imp_failed st) eqn:Ef.
  - apply import_row_failed. exact Ef.
  - exact (import_row_duplicate st row r issue due Ef Hc Hi Hd Hin).
Qed.

(** X19: a row that reaches its invoice (customer found by e-mail or
    created from the name, both dates parse, both inserts accepted) but
    has a blank description, a quantity or price that [Decimal] rejects,
    or a [quantity * price] that overflows, is counted as skipped, yet
    leaves its invoice in the session: no items, zero totals, the row's
    status, and the row's number or a generated one. *)
Theorem import_row_leaves_itemless_invoice (st : ImportState) (row : ImportRow)
    (r : ImportCustomer + ImportCustomer) (issue due : Z) :
  imp_failed st = false ->
  import_customer same_email (imp_customers st) row = Some r ->
  customer_flush_ok flush_ok (imp_customers st) (imp_invoices st) r = true ->
  opt_date parse_date (row_issue_date row) = Some issue ->
  opt_date parse_date (row_due_date row) = Some due ->
  let inv := import_invoice like_prefix today_str now settings (imp_invoices st) row
               (resolved_customer r) issue due in
  flush_ok (customers_after (imp_customers st) r) (imp_invoices st ++ [inv]) = true ->
  str_truthy (import_description row) = false
  \/ parse_decimal (py_str_opt (row_item_quantity row)) = None
  \/ parse_decimal (py_str_opt (row_item_unit_price row)) = None
  \/ (exists q p e, parse_decimal (py_str_opt (row_item_quantity row)) = Some q
        /\ parse_decimal (py_str_opt (row_item_unit_price row)) = Some p
        /\ dec_mul q p = DRaised e) ->
  step st row
  = mkImportState (customers_after (imp_customers st) r) (imp_invoices st ++ [inv])
      (imp_count st) (S (imp_errors st)) false
  /\ items inv = [] /\ total_amount inv = 0 /\ balance_due inv = 0
  /\ status inv = import_status (row_status row)
  /\ invoice_number inv = import_number like_prefix today_str (imp_invoices st) row.
Proof.
  intros Hf Hc Hcf Hi Hd inv Hfl Hbad. subst inv.
  split; [|repeat split].
  unfold import_row. cbv zeta. rewrite Hf, Hc. cbv beta iota.
  rewrite Hcf. cbv beta iota. rewrite Hi, Hd. cbv beta iota. rewrite Hfl. cbv beta iota.
  destruct (str_truthy (import_description row)) eqn:Hs; cbv beta iota; [|reflexivity].
  destruct Hbad as [Hb|[Hb|[Hb|(q & p & e & Hq & Hp & Hm)]]].
  - congruence.
  - rewrite Hb. reflexivity.
  - rewrite Hb. destruct (parse_decimal (py_str_opt (row_item_quantity row))); reflexivity.
  - rewrite Hq, Hp. cbv beta iota. unfold make_item. rewrite Hm. reflexivity.
Qed.

(** X20: a row with a customer name, not found by e-mail, whose dates do
    not parse is skipped, but the customer it names has already been
    created (and accepted by the database) and is kept. *)
Theorem import_bad_date_keeps_customer (st : ImportState) (row : ImportRow) (n : string) :
  imp_failed st = false ->
  strip_or_none (row_customer_name row) = Some n ->
  match strip_or_none (row_customer_email row) with
  | Some e => find_customer_by_email same_email e (imp_customers st) = None
  | None => True
  end ->
  let c := mkImportCustomer (Z.of_nat (S (List.length (imp_customers st)))) n
             (strip_or_none (row_customer_email row)) (mkCustomer None true) in
  flush_ok (imp_customers st ++ [c]) (imp_invoices st) = true ->
  opt_date parse_date (row_issue_date row) = None
  \/ opt_date parse_date (row_due_date row) = None ->
  step st row
  = mkImportState (imp_customers st ++ [c]) (imp_invoices st) (imp_count st)
      (S (imp_errors st)) false.
Proof.
  intros Hf Hn He c Hfl Hbad. subst c.
  assert (Hc : import_customer same_email (imp_customers st) row
               = Some (inr (mkImportCustomer (Z.of_nat (S (List.length (imp_customers st)))) n
                              (strip_or_none (row_customer_email row)) (mkCustomer None true)))).
  { unfold import_customer. cbv zeta. rewrite Hn. revert He.
    destruct (strip_or_none (row_customer_email row)) as [e|]; intros He;
      [rewrite He|]; reflexivity. }
  unfold import_row. cbv zeta. rewrite Hf, Hc. cbv beta iota.
  unfold customer_flush_ok, customers_after. rewrite Hfl. cbv beta iota.
  destruct Hbad as [Hb|Hb]; rewrite Hb;
    [reflexivity|destruct (opt_date parse_date (row_issue_date row)); reflexivity].
Qed.

(** X21: an imported invoice that is counted never stays a draft and never
    becomes paid by [recalc_totals] (it has no payments): "paid" and
    "cancelled" rows keep their status, every other row becomes overdue
    or sent by its due date. *)
Theorem import_counted_row_status (st : ImportState) (row : ImportRow) :
  imp_count (step st row) = S (imp_count st) ->
  exists inv,
    imp_invoices (step st row) = imp_invoices st ++ [inv]
    /\ payments inv = [] /\ List.length (items inv) = 1%nat
    /\ balance_due inv == total_amount inv
    /\ status inv = match import_status (row_status row) with
                    | Paid => Paid
                    | Cancelled => Cancelled
                    | _ => match due_date inv with
                           | Some d => if Z.ltb d today then Overdue else Sent
                           | None => Sent
                           end
                    end.
Proof.
  intros H. destruct (import_row_counted st row H) as (inv0 & its & E & Hn & Hl & Hs).
  eexists. split; [exact E|].
  destruct (recalc_ok today _ Hn) as (s & t & tot & b & _ & _ & E3 & E4 & Er).
  rewrite Er. unfold with_lines in E4 |- *. unfold set_totals.
  cbn [payments items status due_date balance_due total_amount map dec_sum] in E4 |- *.
  cbn [fold_left dbind] in E4.
  assert (Hb : b = tot).
  { unfold dec_sum in E4. cbn [fold_left dbind] in E4.
    unfold dec_sub in E4. unfold dec_add in E3.
    rewrite (ctx_round_comp _ tot) in E4 by ring.
    rewrite (ctx_round_idem _ _ E3) in E4. congruence. }
  subst b. rewrite next_status_no_payment, Hs.
  split; [reflexivity|]. split; [exact Hl|]. split; reflexivity.
Qed.
End ImportFacts.

(** Import witnesses: [String.prefix] for [LIKE 'p%'], [int] for the
    date and decimal parsers, exact e-mail comparison, a database whose
    one constraint is the unique invoice number, today 739000
    ("20240428"). *)

Lemma import_counts_witness :
  exists st,
    import_invoices String.prefix py_int import_decimal String.eqb unique_numbers 739000
      "20240428" 739000 import_settings [] []
      [import_row_ok; import_row_blank; import_row_bad_date] = Some st
    /\ (imp_count st + imp_errors st = 3)%nat.
Proof.
  destruct (import_invoices String.prefix py_int import_decimal String.eqb unique_numbers 739000
      "20240428" 739000 import_settings [] []
      [import_row_ok; import_row_blank; import_row_bad_date]) as [st|] eqn:E.
  - exists st. split; [reflexivity|].
    exact (import_counts String.prefix py_int import_decimal String.eqb unique_numbers 739000
             "20240428" 739000 import_settings [] []
             [import_row_ok; import_row_blank; import_row_bad_date] st E).
  - exfalso. vm_compute in E. discriminate E.
Defined.

(** The taken number belongs to an invoice stored before the import. *)
Lemma import_duplicate_number_aborts_witness :
  import_invoices String.prefix py_int import_decimal String.eqb unique_numbers 739000
    "20240428" 739000 import_settings [] [scenario_A Sent]
    [import_row_ok; import_row_taken; import_row_blank]
  = None.
Proof.
  apply (import_duplicate_number_aborts String.prefix py_int import_decimal String.eqb
           unique_numbers 739000 "20240428" 739000 import_settings unique_numbers_rejects
           [] [scenario_A Sent] [import_row_ok] [import_row_blank] import_row_taken
           (inr (mkImportCustomer 2 "Dale" None (mkCustomer None true))) 739000 739030);
    vm_compute; auto.
Defined.

Lemma import_row_leaves_itemless_invoice_witness :
  import_row String.prefix py_int import_decimal String.eqb unique_numbers 739000 "20240428"
    739000 import_settings (mkImportState [] [] 0 0 false) import_row_blank
  = mkImportState [mkImportCustomer 1 "Bolt" (Some "ap@bolt.example"%string) (mkCustomer None true)]
      [import_invoice String.prefix "20240428" 739000 import_settings [] import_row_blank
         (mkImportCustomer 1 "Bolt" (Some "ap@bolt.example"%string) (mkCustomer None true))
         739000 739030] 0 1 false.
Proof.
  refine (proj1 (import_row_leaves_itemless_invoice String.prefix py_int import_decimal String.eqb
           unique_numbers 739000 "20240428" 739000 import_settings
           (mkImportState [] [] 0 0 false) import_row_blank
           (inr (mkImportCustomer 1 "Bolt" (Some "ap@bolt.example"%string)
                   (mkCustomer None true))) 739000 739030 _ _ _ _ _ _ _)).
  - reflexivity.
  - vm_compute. reflexivity.
  - vm_compute. reflexivity.
  - vm_compute. reflexivity.
  - vm_compute. reflexivity.
  - vm_compute. reflexivity.
  - left. vm_compute. reflexivity.
Defined.

Lemma import_bad_date_keeps_customer_witness :
  import_row String.prefix py_int import_decimal String.eqb unique_numbers 739000 "20240428"
    739000 import_settings (mkImportState [] [] 0 0 false) import_row_bad_date
  = mkImportState [mkImportCustomer 1 "Cole" None (mkCustomer None true)] [] 0 1 false.
Proof.
  apply (import_bad_date_keeps_customer String.prefix py_int import_decimal String.eqb
           unique_numbers 739000 "20240428" 739000 import_settings
           (mkImportState [] [] 0 0 false) import_row_bad_date "Cole").
  - reflexivity.
  - vm_compute. reflexivity.
  - vm_compute. exact I.
  - vm_compute. reflexivity.
  - left. vm_compute. reflexivity.
Defined.

Lemma import_counted_row_status_witness :
  exists inv,
    imp_invoices (import_row String.prefix py_int import_decimal String.eqb unique_numbers
                    739000 "20240428" 739000 import_settings (mkImportState [] [] 0 0 false)
                    import_row_ok)
    = [] ++ [inv]
    /\ payments inv = [] /\ List.length (items inv) = 1%nat
    /\ balance_due inv == total_amount inv
    /\ status inv = match import_status (row_status import_row_ok) with
                    | Paid => Paid
                    | Cancelled => Cancelled
                    | _ => match due_date inv with
                           | Some d => if Z.ltb d 739000 then Overdue else Sent
                           | None => Sent
                           end
                    end.
Proof.
  apply (import_counted_row_status String.prefix py_int import_decimal String.eqb
           unique_numbers 739000 "20240428" 739000 import_settings
           (mkImportState [] [] 0 0 false) import_row_ok).
  vm_compute. reflexivity.
Defined.

(** *** [Settings.load] *)

(** X22: on an empty settings table, [Settings.load] yields settings under
    which an invoice without an explicit due date gets none, an invoice
    without a customer is taxed at 0, and no webhook is sent. *)
Theorem settings_load_fresh (issue : Z) (event_type : string) :
  resolve_due_date issue None (settings_of_row (settings_load None)) = Returned None
  /\ determine_tax_rate_for_customer None (settings_of_row (settings_load None)) = 0
  /\ webhook_dispatches (webhook_of_row (settings_load None)) event_type = false.
Proof. split; [|split]; reflexivity. Qed.

(** X23: loading again what [Settings.load] returned changes nothing. *)
Theorem settings_load_idempotent (row : option SettingsRow) :
  settings_load (Some (settings_load row)) = settings_load row.
Proof.
  destruct row as [[t u e ev d g]|]; [|reflexivity].
  destruct ev, d, g; reflexivity.
Qed.

(** X24: a settings row whose [use_global_payment_terms] is NULL is read as
    "off": an invoice without an explicit due date gets none, whatever
    [payment_terms_days] holds. *)
Theorem settings_load_null_terms (r : SettingsRow) (issue : Z) :
  srow_use_global_payment_terms r = None ->
  resolve_due_date issue None (settings_of_row (settings_load (Some r))) = Returned None.
Proof.
  intros H. unfold resolve_due_date, settings_of_row, settings_load. cbv zeta.
  cbn [srow_use_global_payment_terms srow_payment_terms_days srow_default_tax_rate].
  rewrite H. reflexivity.
Qed.

Lemma settings_load_null_terms_witness :
  srow_use_global_payment_terms (mkSettingsRow 20 None false None (Some 30%Z) None) = None
  /\ resolve_due_date 739000 None
       (settings_of_row (settings_load (Some (mkSettingsRow 20 None false None (Some 30%Z) None))))
     = Returned None.
Proof.
  split; [reflexivity|].
  apply settings_load_null_terms. reflexivity.
Defined.
